(** * A shallow embedding of [bot.py], the Telegram transcription bot

    The bot receives a voice / audio / video message, downloads it into a
    scoped temporary directory, runs ffmpeg on it to obtain a mono 16 kHz
    waveform, feeds that to a lazily constructed Whisper model and replies
    with the joined segment texts.

    The embedding follows the source function by function.  Python [str]
    values are lists of Unicode code points; the module globals, the part of
    the file system the handler touches and the log of calls made to the
    outside world (Bot API, ffmpeg, the model library) form one explicit
    [World]; the handlers are computations in a state-and-exception monad
    over it.  Whatever the outside world decides (does the download succeed,
    what does ffmpeg return, which segments does the model yield) is
    supplied by an [Env] record, one per handler run. *)

From Stdlib Require Import String Ascii Sorted.
From stdpp Require Import base option list gmap.

Local Open Scope N_scope.

(** ** Python strings *)

Module PyStr.

(** A [str] is a sequence of code points. *)
Definition pystr := list N.

(** Literals of the source are written as Rocq strings, which are byte
    strings: [str] decodes their UTF-8 encoding.  [need] counts the
    continuation bytes still expected for the code point under
    construction, [acc] holds its bits read so far. *)
Fixpoint utf8_decode (s : string) (acc : N) (need : nat) : pystr :=
  match s with
  | EmptyString => []
  | String a s' =>
      let b := N_of_ascii a in
      match need with
      | O =>
          if b <? 128 then b :: utf8_decode s' 0 0
          else if b <? 224 then utf8_decode s' (N.land b 31) 1
          else if b <? 240 then utf8_decode s' (N.land b 15) 2
          else utf8_decode s' (N.land b 7) 3
      | S O => (acc * 64 + N.land b 63) :: utf8_decode s' 0 0
      | S n => utf8_decode s' (acc * 64 + N.land b 63) n
      end
  end.

Definition str (s : string) : pystr := utf8_decode s 0 0.

(** [str.isspace] on one code point: the characters of bidirectional type
    WS, B or S and of category Zs, which are the ones [str.strip()]
    removes. *)
Definition isspace (c : N) : bool :=
  ((9 <=? c) && (c <=? 13)) || ((28 <=? c) && (c <=? 32))
  || (c =? 133) || (c =? 160) || (c =? 5760)
  || ((8192 <=? c) && (c <=? 8202))
  || (c =? 8232) || (c =? 8233) || (c =? 8239) || (c =? 8287)
  || (c =? 12288).

Fixpoint lstrip (s : pystr) : pystr :=
  match s with
  | [] => []
  | c :: s' => if isspace c then lstrip s' else s
  end.

Definition rstrip (s : pystr) : pystr := rev (lstrip (rev s)).

(** [s.strip()] *)
Definition strip (s : pystr) : pystr := rstrip (lstrip s).

(** [s.split(sep)] for a separator of one character; the result is never
    the empty list. *)
Fixpoint split (sep : N) (s : pystr) : list pystr :=
  match s with
  | [] => [[]]
  | c :: s' =>
      if c =? sep then [] :: split sep s'
      else match split sep s' with
           | h :: t => (c :: h) :: t
           | [] => [[c]]
           end
  end.

(** [l[-1]] on a list of strings that is known not to be empty. *)
Definition last_item (l : list pystr) : pystr := List.last l [].

Fixpoint startswith (p s : pystr) : bool :=
  match p, s with
  | [], _ => true
  | _ :: _, [] => false
  | a :: p', b :: s' => (a =? b) && startswith p' s'
  end.

(** [needle in hay] *)
Fixpoint contains (needle hay : pystr) : bool :=
  startswith needle hay ||
  match hay with
  | [] => false
  | _ :: hay' => contains needle hay'
  end.

Definition is_ascii (c : N) : bool := c <? 128.

Definition ascii_lower (c : N) : N :=
  if (65 <=? c) && (c <=? 90) then c + 32 else c.

(** [s.lower()].  On a string of ASCII characters it maps [A-Z] to [a-z];
    on any other string Python applies the Unicode case mapping, which is
    not a per-character table (final sigma, dotted capital I): it is the
    parameter [unicode_lower]. *)
Definition lower (unicode_lower : pystr -> pystr) (s : pystr) : pystr :=
  if forallb is_ascii s then map ascii_lower s else unicode_lower s.

(** Truth value of an [Optional[str]]: [None] and [""] are false. *)
Definition truthy (o : option pystr) : bool :=
  match o with
  | Some (_ :: _) => true
  | _ => false
  end.

(** [o or d] for an [Optional[str]] [o]. *)
Definition or_else (o : option pystr) (d : pystr) : pystr :=
  match o with
  | Some (c :: s) => c :: s
  | _ => d
  end.

(** ["".join(parts)] *)
Definition join (parts : list pystr) : pystr := concat parts.

End PyStr.
Import PyStr.

(** ** Telegram objects

    Only the attributes the bot reads are kept, and [file_id], which tells
    the attachments apart. *)

Record Voice := { voice_file_id : pystr }.
Record Audio := { audio_file_id : pystr; audio_file_name : option pystr }.
Record Video := { video_file_id : pystr }.
Record Document := {
  document_file_id : pystr;
  document_file_name : option pystr;
  document_mime_type : option pystr }.

Record Message := {
  voice : option Voice;
  audio : option Audio;
  video : option Video;
  document : option Document }.

Record Update := { message : option Message }.

(** [context.args] of a command handler. *)
Record Context := { args : list pystr }.

(** The attachment kinds of a message. *)
Inductive Kind := KVoice | KAudio | KVideo | KDocument.

(** What [get_file()] returns. *)
Record File := { file_kind : Kind; file_id : pystr }.

(** ** Paths, the model, time *)

(** [Path(td) / name] *)
Record Path := { path_dir : pystr; path_name : pystr }.

Definition path_str (p : Path) : pystr := path_dir p ++ str "/" ++ path_name p.

(** A constructed [WhisperModel]: its identity and the parameters it was
    built from. *)
Record WhisperModel := {
  wm_id : N;
  wm_size : pystr;
  wm_device : pystr;
  wm_compute_type : pystr }.

(** A segment of the model's output; only [text] is read. *)
Record Segment := { text : pystr }.

Record datetime := { year : N; month : N; day : N; hour : N; minute : N }.

Definition digit (n : N) : N := 48 + n mod 10.
Definition pad2 (n : N) : pystr := [digit (n / 10); digit n].
Definition pad4 (n : N) : pystr :=
  [digit (n / 1000); digit (n / 100); digit (n / 10); digit n].

(** [d.strftime("%Y-%m-%d %H:%M")], for a year of four digits. *)
Definition strftime (d : datetime) : pystr :=
  pad4 (year d) ++ str "-" ++ pad2 (month d) ++ str "-" ++ pad2 (day d)
  ++ str " " ++ pad2 (hour d) ++ str ":" ++ pad2 (minute d).

(** ** The world *)

(** Calls that leave the process, in the order they are made. *)
Inductive Event :=
| EGetFile (k : Kind) (id : pystr)
| EReply (body : pystr)
| EMkdtemp (td : pystr)
| ERmtree (td : pystr)
| EDownload (f : File) (dest : Path)
| EWhich (prog : pystr)
| ESpawn (cmd : list pystr)
| EConstruct (size device compute_type : pystr)
| ETranscribe (m : WhisperModel) (wav : pystr) (language : option pystr)
    (task : pystr) (beam_size : N) (vad_filter : bool).

(** The module globals of [bot.py], the temporary directories on disk
    (each with the names of the entries inside it), the log of outside
    calls and the next free object identity. *)
Record World := {
  MODEL_SIZE : pystr;
  DEVICE : pystr;
  COMPUTE_TYPE : pystr;
  TARGET_LANG : pystr;
  MODE : pystr;
  model : option WhisperModel;
  fs : gmap pystr (gset pystr);
  trace : list Event;
  next_id : N }.

Definition set_MODE (v : pystr) (w : World) : World :=
  {| MODEL_SIZE := MODEL_SIZE w; DEVICE := DEVICE w;
     COMPUTE_TYPE := COMPUTE_TYPE w; TARGET_LANG := TARGET_LANG w;
     MODE := v; model := model w; fs := fs w; trace := trace w;
     next_id := next_id w |}.

Definition set_TARGET_LANG (v : pystr) (w : World) : World :=
  {| MODEL_SIZE := MODEL_SIZE w; DEVICE := DEVICE w;
     COMPUTE_TYPE := COMPUTE_TYPE w; TARGET_LANG := v;
     MODE := MODE w; model := model w; fs := fs w; trace := trace w;
     next_id := next_id w |}.

Definition set_model (v : option WhisperModel) (w : World) : World :=
  {| MODEL_SIZE := MODEL_SIZE w; DEVICE := DEVICE w;
     COMPUTE_TYPE := COMPUTE_TYPE w; TARGET_LANG := TARGET_LANG w;
     MODE := MODE w; model := v; fs := fs w; trace := trace w;
     next_id := next_id w |}.

Definition set_fs (v : gmap pystr (gset pystr)) (w : World) : World :=
  {| MODEL_SIZE := MODEL_SIZE w; DEVICE := DEVICE w;
     COMPUTE_TYPE := COMPUTE_TYPE w; TARGET_LANG := TARGET_LANG w;
     MODE := MODE w; model := model w; fs := v; trace := trace w;
     next_id := next_id w |}.

Definition set_trace (v : list Event) (w : World) : World :=
  {| MODEL_SIZE := MODEL_SIZE w; DEVICE := DEVICE w;
     COMPUTE_TYPE := COMPUTE_TYPE w; TARGET_LANG := TARGET_LANG w;
     MODE := MODE w; model := model w; fs := fs w; trace := v;
     next_id := next_id w |}.

Definition set_next_id (v : N) (w : World) : World :=
  {| MODEL_SIZE := MODEL_SIZE w; DEVICE := DEVICE w;
     COMPUTE_TYPE := COMPUTE_TYPE w; TARGET_LANG := TARGET_LANG w;
     MODE := MODE w; model := model w; fs := fs w; trace := trace w;
     next_id := v |}.

(** ** The monad: state and exceptions *)

Inductive Exn :=
| AttributeError   (* attribute access on [None] *)
| TelegramError    (* a Bot API call failed *)
| OSError          (* the subprocess could not be started *)
| ModelError.      (* model construction or inference failed *)

Inductive Result (A : Type) :=
| Ok (a : A)
| Raise (e : Exn).
Arguments Ok {A} a.
Arguments Raise {A} e.

(** A raised exception keeps the world as it was when it was raised. *)
Definition M (A : Type) : Type := World -> Result A * World.

#[global] Instance M_ret : MRet M := fun A a w => (Ok a, w).

#[global] Instance M_bind : MBind M := fun A B f m w =>
  match m w with
  | (Ok a, w') => f a w'
  | (Raise e, w') => (Raise e, w')
  end.

Definition raise {A} (e : Exn) : M A := fun w => (Raise e, w).
Definition gets {A} (f : World -> A) : M A := fun w => (Ok (f w), w).
Definition modify (f : World -> World) : M unit := fun w => (Ok tt, f w).
Definition emit (e : Event) : M unit :=
  modify (fun w => set_trace (trace w ++ [e]) w).

(** [try: body finally: cleanup] *)
Definition finally {A} (body : M A) (cleanup : M unit) : M A := fun w =>
  match body w with
  | (r, w') =>
      match cleanup w' with
      | (Ok _, w'') => (r, w'')
      | (Raise e, w'') => (Raise e, w'')
      end
  end.

Definition run {A} (m : M A) (w : World) : World := snd (m w).
Definition result {A} (m : M A) (w : World) : Result A := fst (m w).

(** ** The outside world *)

(** What the outside world answers during one handler run. *)
Record Env := {
  (** the Bot API answers [get_file()] *)
  env_get_file : bool;
  (** the fresh directory [mkdtemp] creates *)
  env_tmpdir : pystr;
  (** [download_to_drive] completes *)
  env_download : bool;
  (** [shutil.which("ffmpeg")] *)
  env_which : option pystr;
  (** the subprocess: [None] when it cannot be started, else its return
      code and whether it created its output file *)
  env_proc : option (Z * bool);
  (** [WhisperModel(...)] returns a model *)
  env_construct : bool;
  (** the segments the model yields, [None] when inference raises (in
      [transcribe] or while the segment generator is consumed) *)
  env_segments : option (list Segment);
  (** [datetime.now()] *)
  env_now : datetime;
  (** the Bot API accepts [reply_text] *)
  env_reply : bool;
  (** [str.lower] outside ASCII *)
  env_unicode_lower : pystr -> pystr }.

Definition reply_text (env : Env) (body : pystr) : M unit :=
  emit (EReply body);;
  if env_reply env then mret tt else raise TelegramError.

(** [update.message.reply_text(body)] *)
Definition update_message_reply_text (env : Env) (update : Update)
    (body : pystr) : M unit :=
  match message update with
  | Some _ => reply_text env body
  | None => raise AttributeError
  end.

Definition get_file (env : Env) (k : Kind) (id : pystr) : M File :=
  emit (EGetFile k id);;
  if env_get_file env then mret {| file_kind := k; file_id := id |}
  else raise TelegramError.

Definition fs_add (p : Path) (w : World) : World :=
  set_fs (alter (fun entries => {[path_name p]} ∪ entries) (path_dir p) (fs w)) w.

Definition download_to_drive (env : Env) (f : File) (dest : Path) : M unit :=
  emit (EDownload f dest);;
  if env_download env then modify (fs_add dest) else raise TelegramError.

(** [p.exists()] *)
Definition path_exists (p : Path) : M bool :=
  gets (fun w => match fs w !! path_dir p with
                 | Some entries => bool_decide (path_name p ∈ entries)
                 | None => false
                 end).

(** [asyncio.create_subprocess_exec] on [cmd] followed by
    [proc.communicate()]; the value is [proc.returncode].  [out] is the
    path the last argument of [cmd] names. *)
Definition subprocess_exec (env : Env) (cmd : list pystr) (out : Path) : M Z :=
  emit (ESpawn cmd);;
  match env_proc env with
  | None => raise OSError
  | Some (returncode, wrote) =>
      (if wrote then modify (fs_add out) else mret tt);;
      mret returncode
  end.

(** [WhisperModel(size, device=device, compute_type=compute_type)] *)
Definition WhisperModel_new (env : Env) (size device compute_type : pystr)
    : M WhisperModel :=
  emit (EConstruct size device compute_type);;
  if env_construct env then
    id ← gets next_id;
    modify (set_next_id (id + 1));;
    mret {| wm_id := id; wm_size := size; wm_device := device;
            wm_compute_type := compute_type |}
  else raise ModelError.

(** [whisper.transcribe(wav, language=..., task=..., beam_size=...,
    vad_filter=...)] with its segment generator run to the end. *)
Definition transcribe (env : Env) (whisper : WhisperModel) (wav : pystr)
    (language : option pystr) (task : pystr) (beam_size : N)
    (vad_filter : bool) : M (list Segment) :=
  emit (ETranscribe whisper wav language task beam_size vad_filter);;
  match env_segments env with
  | Some segments => mret segments
  | None => raise ModelError
  end.

(** [with tempfile.TemporaryDirectory() as td: body]: the directory is
    removed with everything in it when the block is left, normally or by
    an exception. *)
Definition TemporaryDirectory {A} (env : Env) (body : pystr -> M A) : M A :=
  let td := env_tmpdir env in
  emit (EMkdtemp td);;
  modify (fun w => set_fs (<[td := ∅]> (fs w)) w);;
  finally (body td)
          (emit (ERmtree td);; modify (fun w => set_fs (delete td (fs w)) w)).

(** ** bot.py *)

(** [get_model], lines 25-29. *)
Definition get_model (env : Env) : M (option WhisperModel) :=
  m ← gets model;
  match m with
  | None =>
      size ← gets MODEL_SIZE;
      device ← gets DEVICE;
      compute_type ← gets COMPUTE_TYPE;
      h ← WhisperModel_new env size device compute_type;
      modify (set_model (Some h))
  | Some _ => mret tt
  end;;
  gets model.

(** The replies of the two commands. *)
Definition mode_updated_text (mode : pystr) : pystr := str "מצב עודכן ל־" ++ mode.
Definition mode_usage_text : pystr :=
  str "השתמשו: /mode transcribe | /mode translate".
Definition lang_updated_text (lang : pystr) : pystr :=
  str "שפה מועדפת עודכנה ל־" ++ lang.
Definition lang_usage_text : pystr := str "השתמשו: /lang he  (או השפה שתרצו)".

(** [mode_cmd], lines 45-51. *)
Definition mode_cmd (env : Env) (update : Update) (context : Context) : M unit :=
  match args context with
  | a :: _ =>
      if bool_decide (a ∈ [str "transcribe"; str "translate"]) then
        modify (set_MODE a);;
        mode ← gets MODE;
        update_message_reply_text env update (mode_updated_text mode)
      else update_message_reply_text env update mode_usage_text
  | [] => update_message_reply_text env update mode_usage_text
  end.

(** [lang_cmd], lines 53-59. *)
Definition lang_cmd (env : Env) (update : Update) (context : Context) : M unit :=
  match args context with
  | a :: _ =>
      modify (set_TARGET_LANG a);;
      lang ← gets TARGET_LANG;
      update_message_reply_text env update (lang_updated_text lang)
  | [] => update_message_reply_text env update lang_usage_text
  end.

(** [ffmpeg_available], lines 61-63. *)
Definition ffmpeg_available (env : Env) : M bool :=
  emit (EWhich (str "ffmpeg"));;
  mret (match env_which env with Some _ => true | None => false end).

(** The replies of [handle_media]. *)
Definition no_media_text : pystr :=
  str "שלחו לי הודעת קול / קובץ אודיו / וידאו לתמלול.".
Definition ffmpeg_missing_text : pystr := str "FFmpeg לא מותקן על השרת.".
Definition conversion_error_text : pystr := str "שגיאה בהמרת אודיו.".
Definition no_text_placeholder : pystr := str "(לא זוהה טקסט)".

(** Line 77, the extension of an audio attachment:
    [(file_name or "audio").split(".")[-1].lower() if file_name else "mp3"] *)
Definition audio_suggested_ext (env : Env) (a : Audio) : pystr :=
  if truthy (audio_file_name a) then
    lower (env_unicode_lower env)
      (last_item (split 46 (or_else (audio_file_name a) (str "audio"))))
  else str "mp3".

(** Line 83, the extension of a document:
    [(file_name or "audio").split(".")[-1].lower()] *)
Definition document_suggested_ext (env : Env) (d : Document) : pystr :=
  lower (env_unicode_lower env)
    (last_item (split 46 (or_else (document_file_name d) (str "audio")))).

(** Line 81, the test on a document:
    [mime_type and "audio" in mime_type] *)
Definition mime_type_has_audio (d : Document) : bool :=
  match document_mime_type d with
  | Some (c :: s) => contains (str "audio") (c :: s)
  | _ => false
  end.

(** Lines 118-120: the joined, stripped segment texts, or the
    placeholder. *)
Definition transcript_text (segments : list Segment) : pystr :=
  let text := strip (join (map text segments)) in
  match text with
  | [] => no_text_placeholder
  | _ :: _ => text
  end.

(** Line 122: the body of the final reply. *)
Definition success_reply (stamp text : pystr) : pystr :=
  str "📝 " ++ stamp ++ [10] ++ text.

(** Lines 88-122, the block under [with tempfile.TemporaryDirectory()]. *)
Definition pipeline (env : Env) (tg_file : File) (suggested_ext : pystr)
    (td : pystr) : M unit :=
  let in_path := {| path_dir := td; path_name := str "in." ++ suggested_ext |} in
  let out_wav := {| path_dir := td; path_name := str "out.wav" |} in
  download_to_drive env tg_file in_path;;
  available ← ffmpeg_available env;
  if negb available then reply_text env ffmpeg_missing_text
  else
    let cmd := [str "ffmpeg"; str "-y"; str "-i"; path_str in_path;
                str "-ac"; str "1"; str "-ar"; str "16000";
                path_str out_wav] in
    returncode ← subprocess_exec env cmd out_wav;
    failed ← (if negb (returncode =? 0)%Z then mret true
              else present ← path_exists out_wav; mret (negb present));
    if (failed : bool) then reply_text env conversion_error_text
    else
      got ← get_model env;
      match got with
      | None => raise AttributeError
      | Some whisper =>
          mode ← gets MODE;
          let task := if bool_decide (mode = str "translate")
                      then str "translate" else str "transcribe" in
          lang ← gets TARGET_LANG;
          segments ← transcribe env whisper (path_str out_wav)
                       (match lang with [] => None | _ :: _ => Some lang end)
                       task 5 true;
          let text := transcript_text segments in
          let stamp := strftime (env_now env) in
          reply_text env (success_reply stamp text)
      end.

(** [handle_media], lines 65-122. *)
Definition handle_media (env : Env) (update : Update) : M unit :=
  match message update with
  | None => mret tt
  | Some msg =>
      let no_media : M (option (File * pystr)) :=
        reply_text env no_media_text;; mret None in
      resolved ←
        match voice msg with
        | Some v =>
            tg_file ← get_file env KVoice (voice_file_id v);
            mret (Some (tg_file, str "ogg"))
        | None =>
        match audio msg with
        | Some a =>
            tg_file ← get_file env KAudio (audio_file_id a);
            mret (Some (tg_file, audio_suggested_ext env a))
        | None =>
        match video msg with
        | Some v =>
            tg_file ← get_file env KVideo (video_file_id v);
            mret (Some (tg_file, str "mp4"))
        | None =>
        match document msg with
        | Some d =>
            if mime_type_has_audio d then
              tg_file ← get_file env KDocument (document_file_id d);
              mret (Some (tg_file, document_suggested_ext env d))
            else no_media
        | None => no_media
        end end end end;
      match resolved with
      | None => mret tt
      | Some (tg_file, suggested_ext) =>
          TemporaryDirectory env (pipeline env tg_file suggested_ext)
      end
  end.

(** ** Runs observed from outside *)

(** The events a computation appends to the log. *)
Definition events_of {A} (m : M A) (w : World) : list Event :=
  drop (length (trace w)) (trace (run m w)).

(** The bodies of the replies among some events. *)
Definition replies (evs : list Event) : list pystr :=
  omap (fun e => match e with EReply body => Some body | _ => None end) evs.

Definition is_spawn (e : Event) : bool :=
  match e with ESpawn _ => true | _ => false end.

Definition is_transcribe (e : Event) : bool :=
  match e with ETranscribe _ _ _ _ _ _ => true | _ => false end.

(** Construction of the model and inference both count as model calls. *)
Definition is_model_call (e : Event) : bool :=
  match e with
  | EConstruct _ _ _ | ETranscribe _ _ _ _ _ _ => true
  | _ => false
  end.

(** A sequence of [get_model] calls, each from a request of its own: a
    call that raises does not stop the later ones. *)
Fixpoint get_model_calls (envs : list Env) (w : World)
    : list (Result (option WhisperModel)) * World :=
  match envs with
  | [] => ([], w)
  | env :: envs' =>
      let (r, w') := get_model env w in
      let (rs, w'') := get_model_calls envs' w' in
      (r :: rs, w'')
  end.

(** The model a successful construction in world [w] yields. *)
Definition constructed (w : World) : WhisperModel :=
  {| wm_id := next_id w; wm_size := MODEL_SIZE w; wm_device := DEVICE w;
     wm_compute_type := COMPUTE_TYPE w |}.

(** ** The specification's reading of the decision points *)

(** Media resolution as the specification words it: the first attachment
    kind present, in the order voice note, audio file, video file,
    document whose MIME type contains [audio]; with the attachment's
    file id. *)
Definition first_present (msg : Message) : option (Kind * pystr) :=
  match voice msg, audio msg, video msg, document msg with
  | Some v, _, _, _ => Some (KVoice, voice_file_id v)
  | None, Some a, _, _ => Some (KAudio, audio_file_id a)
  | None, None, Some v, _ => Some (KVideo, video_file_id v)
  | None, None, None, Some d =>
      match document_mime_type d with
      | Some mime =>
          if contains (str "audio") mime
          then Some (KDocument, document_file_id d)
          else None
      | None => None
      end
  | None, None, None, None => None
  end.

(** After resolution only the resolved payload is handled: no further
    [get_file], and downloads of that payload only. *)
Definition only_payload (f : File) (e : Event) : Prop :=
  match e with
  | EGetFile _ _ => False
  | EDownload f' _ => f' = f
  | _ => True
  end.

(** The arguments the specification prescribes for the model call, given
    the run mode and the preferred language. *)
Definition model_call_ok (mode lang : pystr) (e : Event) : Prop :=
  match e with
  | ETranscribe _ _ language task beam_size vad_filter =>
      (mode = str "translate" -> task = str "translate") /\
      (mode <> str "translate" -> task = str "transcribe") /\
      (lang = [] -> language = None) /\
      (lang <> [] -> language = Some lang) /\
      beam_size = 5 /\ vad_filter = true
  | _ => True
  end.

(** The mode a [/mode] command is allowed to set, as the specification
    words it: its first argument when that is exactly [transcribe] or
    [translate]. *)
Definition accepted_mode (argv : list pystr) : option pystr :=
  match argv with
  | a :: _ =>
      if bool_decide (a = str "transcribe" \/ a = str "translate")
      then Some a else None
  | [] => None
  end.

(** [t] is [s] trimmed of leading and trailing white space: what was
    removed at either end is white space, and what is left neither starts
    nor ends with it. *)
Definition trimmed_of (s t : pystr) : Prop :=
  exists pre post,
    s = pre ++ t ++ post /\
    forallb isspace pre = true /\ forallb isspace post = true /\
    match head t, last t with
    | Some a, Some z => isspace a = false /\ isspace z = false
    | _, _ => t = []
    end.

Definition isdigit (c : N) : bool := (48 <=? c) && (c <=? 57).

(** The number a string of decimal digits denotes. *)
Definition decimal (s : pystr) : N :=
  fold_left (fun acc c => acc * 10 + (c - 48)) s 0.

(** [s] is the number [v] written with [n] decimal digits. *)
Definition digits_of (n : nat) (v : N) (s : pystr) : Prop :=
  length s = n /\ forallb isdigit s = true /\ decimal s = v.

(** [s] is the time [d] in the format [YYYY-MM-DD HH:MM]. *)
Definition stamp_of (d : datetime) (s : pystr) : Prop :=
  exists Y m D H M,
    s = Y ++ str "-" ++ m ++ str "-" ++ D ++ str " " ++ H ++ str ":" ++ M /\
    digits_of 4 (year d) Y /\ digits_of 2 (month d) m /\
    digits_of 2 (day d) D /\ digits_of 2 (hour d) H /\
    digits_of 2 (minute d) M.

(** The values [datetime.now()] returns in the years that [%Y] writes
    with four digits on every platform. *)
Definition four_digit_now (d : datetime) : Prop :=
  1000 <= year d <= 9999 /\ 1 <= month d <= 12 /\ 1 <= day d <= 31 /\
  hour d <= 23 /\ minute d <= 59.

(** ** Sample inputs *)

(** The globals right after start-up with an empty environment. *)
Definition world0 : World :=
  {| MODEL_SIZE := str "small"; DEVICE := str "cpu";
     COMPUTE_TYPE := str "int8"; TARGET_LANG := str "he";
     MODE := str "transcribe"; model := None; fs := ∅; trace := [];
     next_id := 0 |}.

Definition hello_world : list Segment :=
  [ {| text := str "hello " |}; {| text := str "world" |} ].

(** A run in which every outside call succeeds. *)
Definition env_ok : Env :=
  {| env_get_file := true; env_tmpdir := str "/tmp/tmpk3v9";
     env_download := true; env_which := Some (str "/usr/bin/ffmpeg");
     env_proc := Some (0%Z, true); env_construct := true;
     env_segments := Some hello_world;
     env_now := {| year := 2024; month := 3; day := 7; hour := 9; minute := 5 |};
     env_reply := true; env_unicode_lower := fun s => s |}.

(** ffmpeg exits with status zero but leaves no output file. *)
Definition env_no_output : Env :=
  {| env_get_file := true; env_tmpdir := str "/tmp/tmpk3v9";
     env_download := true; env_which := Some (str "/usr/bin/ffmpeg");
     env_proc := Some (0%Z, false); env_construct := true;
     env_segments := Some hello_world;
     env_now := {| year := 2024; month := 3; day := 7; hour := 9; minute := 5 |};
     env_reply := true; env_unicode_lower := fun s => s |}.

(** The model cannot be constructed. *)
Definition env_no_model : Env :=
  {| env_get_file := true; env_tmpdir := str "/tmp/tmpk3v9";
     env_download := true; env_which := Some (str "/usr/bin/ffmpeg");
     env_proc := Some (0%Z, true); env_construct := false;
     env_segments := None;
     env_now := {| year := 2024; month := 3; day := 7; hour := 9; minute := 5 |};
     env_reply := true; env_unicode_lower := fun s => s |}.

Definition voice_update : Update :=
  {| message := Some {| voice := Some {| voice_file_id := str "v1" |};
                        audio := None; video := None; document := None |} |}.

Definition nameless_audio : Audio :=
  {| audio_file_id := str "a1"; audio_file_name := None |}.

Definition nameless_document : Document :=
  {| document_file_id := str "d1"; document_file_name := None;
     document_mime_type := Some (str "audio/mpeg") |}.

Definition nameless_document_update : Update :=
  {| message := Some {| voice := None; audio := None; video := None;
                        document := Some nameless_document |} |}.

(** ** A weakest-precondition reading of the monad *)

(** [wp m Q w]: run from [w], the computation [m] ends, returning or
    raising, with a result and a world that satisfy [Q]. *)
Definition wp {A} (m : M A) (Q : Result A -> World -> Prop) (w : World) : Prop :=
  Q (result m w) (run m w).

(** ** The informational commands *)

(** The replies of [start] and [help_cmd]. *)
Definition start_text : pystr :=
  str "היי! שלחו לי הודעת קול/אודיו או וידאו, ואני אתמלל. "
  ++ str "פקודות: /mode, /lang, /help".

Definition help_text : pystr :=
  str "/mode transcribe — תמלול לשפת המקור" ++ [10]
  ++ str "/mode translate — תרגום לאנגלית תוך כדי תמלול" ++ [10]
  ++ str "/lang he — לקבוע שפה מועדפת (he, en, ar, ...)" ++ [10]
  ++ str "שלחו הודעת קול (Voice) או קובץ אודיו/וידאו (MP3/OGG/WAV/MP4)".

(** [start], lines 31-35. *)
Definition start (env : Env) (update : Update) (context : Context) : M unit :=
  update_message_reply_text env update start_text.

(** [help_cmd], lines 37-43. *)
Definition help_cmd (env : Env) (update : Update) (context : Context)
    : M unit :=
  update_message_reply_text env update help_text.

(** ** Further observations of a run *)

Definition is_which (e : Event) : bool :=
  match e with EWhich _ => true | _ => false end.

Definition is_construct (e : Event) : bool :=
  match e with EConstruct _ _ _ => true | _ => false end.

Definition is_mkdtemp (e : Event) : bool :=
  match e with EMkdtemp _ => true | _ => false end.

Definition is_rmtree (e : Event) : bool :=
  match e with ERmtree _ => true | _ => false end.

(** The exception with which an outside call ends in the run that [env]
    describes, when it fails there: the Bot API calls with
    [TelegramError], starting the subprocess with [OSError], the model
    library with [ModelError]. *)
Definition failed_call (env : Env) (e : Event) : option Exn :=
  match e with
  | EGetFile _ _ => if env_get_file env then None else Some TelegramError
  | EDownload _ _ => if env_download env then None else Some TelegramError
  | ESpawn _ =>
      match env_proc env with Some _ => None | None => Some OSError end
  | EConstruct _ _ _ => if env_construct env then None else Some ModelError
  | ETranscribe _ _ _ _ _ _ =>
      match env_segments env with
      | Some _ => None
      | None => Some ModelError
      end
  | EReply _ => if env_reply env then None else Some TelegramError
  | EMkdtemp _ | ERmtree _ | EWhich _ => None
  end.

(** The place of an event in the handler: resolving the attachment, the
    scoped directory, the download, the tool check, transcoding, the
    model, the reply, the release of the directory. *)
Definition stage (e : Event) : nat :=
  match e with
  | EGetFile _ _ => 0
  | EMkdtemp _ => 1
  | EDownload _ _ => 2
  | EWhich _ => 3
  | ESpawn _ => 4
  | EConstruct _ _ _ => 5
  | ETranscribe _ _ _ _ _ _ => 6
  | EReply _ => 7
  | ERmtree _ => 8
  end%nat.

(** How often a sequence of [get_model] calls that starts with an empty
    cache reaches the constructor: once per call up to the first call
    whose construction succeeds. *)
Fixpoint attempts (envs : list Env) : nat :=
  match envs with
  | [] => 0
  | env :: envs' => if env_construct env then 1 else S (attempts envs')
  end%nat.

(** What those calls return: [ModelError] up to the first successful
    construction, the model [h] from then on. *)
Fixpoint outcomes (h : WhisperModel) (envs : list Env)
    : list (Result (option WhisperModel)) :=
  match envs with
  | [] => []
  | env :: envs' =>
      if env_construct env
      then replicate (S (length envs')) (Ok (Some h))
      else Raise ModelError :: outcomes h envs'
  end.

(** An inference call made with the settings [mode0] and [lang0] on the
    cached model [cache] and the waveform of the scoped directory [td]. *)
Definition transcribe_with (mode0 lang0 : pystr)
    (cache : option WhisperModel) (td : pystr) (e : Event) : Prop :=
  match e with
  | ETranscribe m wav language task _ _ =>
      cache = Some m /\
      wav = path_str {| path_dir := td; path_name := str "out.wav" |} /\
      language = match lang0 with [] => None | _ :: _ => Some lang0 end /\
      task = if bool_decide (mode0 = str "translate")
             then str "translate" else str "transcribe"
  | _ => True
  end.

(** An inference call with the given task and language. *)
Definition task_and_language (task0 : pystr) (language0 : option pystr)
    (e : Event) : Prop :=
  match e with
  | ETranscribe _ _ language task _ _ => task = task0 /\ language = language0
  | _ => True
  end.

(** ** Further sample inputs *)

(** An update without message object. *)
Definition no_message : Update := {| message := None |}.

(** Attachments whose declared name has no dot, and several. *)
Definition dotless_audio : Audio :=
  {| audio_file_id := str "a2"; audio_file_name := Some (str "Recording") |}.

Definition dotless_document : Document :=
  {| document_file_id := str "d2";
     document_file_name := Some (str "Recording");
     document_mime_type := Some (str "audio/ogg") |}.

Definition dotted_audio : Audio :=
  {| audio_file_id := str "a3";
     audio_file_name := Some (str "my.song.MP3") |}.

Definition dotted_document : Document :=
  {| document_file_id := str "d3";
     document_file_name := Some (str "my.song.MP3");
     document_mime_type := Some (str "audio/mpeg") |}.

(** ffmpeg is not installed. *)
Definition env_no_ffmpeg : Env :=
  {| env_get_file := true; env_tmpdir := str "/tmp/tmpk3v9";
     env_download := true; env_which := None;
     env_proc := None; env_construct := true;
     env_segments := Some hello_world;
     env_now :=
       {| year := 2024; month := 3; day := 7; hour := 9; minute := 5 |};
     env_reply := true; env_unicode_lower := fun s => s |}.

(** The Bot API refuses [get_file()]. *)
Definition env_no_file : Env :=
  {| env_get_file := false; env_tmpdir := str "/tmp/tmpk3v9";
     env_download := true; env_which := Some (str "/usr/bin/ffmpeg");
     env_proc := Some (0%Z, true); env_construct := true;
     env_segments := Some hello_world;
     env_now :=
       {| year := 2024; month := 3; day := 7; hour := 9; minute := 5 |};
     env_reply := true; env_unicode_lower := fun s => s |}.

(** Segments of white space only. *)
Definition blank_segments : list Segment :=
  [ {| text := str "  " |}; {| text := [10; 9] |} ].

(** Segments with white space at both ends of their concatenation. *)
Definition padded_hello : list Segment :=
  [ {| text := str " hello " |}; {| text := str "world " ++ [10] |} ].

Definition env_padded : Env :=
  {| env_get_file := true; env_tmpdir := str "/tmp/tmpk3v9";
     env_download := true; env_which := Some (str "/usr/bin/ffmpeg");
     env_proc := Some (0%Z, true); env_construct := true;
     env_segments := Some padded_hello;
     env_now :=
       {| year := 2024; month := 3; day := 7; hour := 9; minute := 5 |};
     env_reply := true; env_unicode_lower := fun s => s |}.

(** ffmpeg is found but cannot be started. *)
Definition env_spawn_fails : Env :=
  {| env_get_file := true; env_tmpdir := str "/tmp/tmpk3v9";
     env_download := true; env_which := Some (str "/usr/bin/ffmpeg");
     env_proc := None; env_construct := true;
     env_segments := Some hello_world;
     env_now :=
       {| year := 2024; month := 3; day := 7; hour := 9; minute := 5 |};
     env_reply := true; env_unicode_lower := fun s => s |}.

(** The command line of the voice-note run. *)
Definition voice_note_cmd : list pystr :=
  [str "ffmpeg"; str "-y"; str "-i"; str "/tmp/tmpk3v9/in.ogg";
   str "-ac"; str "1"; str "-ar"; str "16000"; str "/tmp/tmpk3v9/out.wav"].

(** * Properties *)

Arguments str : simpl never.
Arguments strftime : simpl never.
Arguments transcript_text : simpl never.
Arguments success_reply : simpl never.

(** ** The string functions on the literals of the source *)

Example str_ascii : str "ogg" = [111; 103; 103].
Proof. by vm_compute. Qed.

Example str_memo : str "📝 " = [128221; 32].
Proof. by vm_compute. Qed.

Example str_hebrew : str "עולם" = [1506; 1493; 1500; 1501].
Proof. by vm_compute. Qed.

Example split_two_dots :
  split 46 (str "a.tar.GZ") = [str "a"; str "tar"; str "GZ"].
Proof. by vm_compute. Qed.

Example split_no_dot : split 46 (str "audio") = [str "audio"].
Proof. by vm_compute. Qed.

Example strip_both :
  strip ([32; 10] ++ str "hello world" ++ [9; 160]) = str "hello world".
Proof. by vm_compute. Qed.

Example strftime_pads :
  strftime (env_now env_ok) = str "2024-03-07 09:05".
Proof. by vm_compute. Qed.

Lemma split_nonempty sep s : split sep s <> [].
Proof.
  destruct s as [|c s]; cbn [split]; [done|].
  destruct (c =? sep); [done|]. by destruct (split sep s).
Qed.

Lemma no_text_placeholder_nonempty : no_text_placeholder <> [].
Proof. by vm_compute. Qed.

Lemma transcript_text_nonempty segments : transcript_text segments <> [].
Proof.
  unfold transcript_text.
  destruct (strip _); [apply no_text_placeholder_nonempty | done].
Qed.

Lemma success_reply_eq stamp segments :
  success_reply stamp (transcript_text segments) =
  str "📝 " ++ stamp ++ [10] ++
    match strip (concat (map text segments)) with
    | [] => str "(לא זוהה טקסט)"
    | c :: s => c :: s
    end.
Proof.
  unfold success_reply, transcript_text, join, no_text_placeholder.
  by destruct (strip _).
Qed.

Lemma mime_type_has_audio_spec d :
  mime_type_has_audio d =
  match document_mime_type d with
  | Some mime => contains (str "audio") mime
  | None => false
  end.
Proof.
  unfold mime_type_has_audio. by destruct (document_mime_type d) as [[|c s]|].
Qed.

Lemma mode_membership (a : pystr) :
  bool_decide (a ∈ [str "transcribe"; str "translate"]) =
  bool_decide (a = str "transcribe" \/ a = str "translate").
Proof. apply bool_decide_ext. rewrite !elem_of_cons, elem_of_nil. tauto. Qed.

(** ** Stripping *)

Lemma forallb_rev_true {A} (f : A -> bool) (l : list A) :
  forallb f l = true -> forallb f (rev l) = true.
Proof.
  rewrite !forallb_forall. intros H x Hx. apply H. by apply in_rev.
Qed.

Lemma lstrip_removes s :
  exists k, s = k ++ lstrip s /\ forallb isspace k = true.
Proof.
  induction s as [|c s (k & IH & Hk)]; [by exists []|]. cbn [lstrip].
  destruct (isspace c) eqn:Hc; [|by exists []].
  exists (c :: k). cbn [app forallb]. rewrite Hc, Hk.
  split; [by rewrite <- IH | done].
Qed.

Lemma lstrip_head s c : head (lstrip s) = Some c -> isspace c = false.
Proof.
  induction s as [|a s IH]; [done|]. cbn [lstrip].
  destruct (isspace a) eqn:Ha; [done|]. by intros [= <-].
Qed.

Lemma rstrip_removes s :
  exists k, s = rstrip s ++ k /\ forallb isspace k = true.
Proof.
  unfold rstrip. destruct (lstrip_removes (rev s)) as (k & Hk & Hsp).
  exists (rev k). split; [|by apply forallb_rev_true].
  rewrite <- rev_app_distr, <- Hk. by rewrite rev_involutive.
Qed.

Lemma last_rev (l : pystr) : last (rev l) = head l.
Proof. destruct l as [|a l]; [done|]. cbn [rev]. apply last_snoc. Qed.

Lemma strip_head s c : head (strip s) = Some c -> isspace c = false.
Proof.
  unfold strip. destruct (rstrip_removes (lstrip s)) as (k & Hk & _).
  intros Hh. apply (lstrip_head s). rewrite Hk.
  destruct (rstrip (lstrip s)); [done|]. exact Hh.
Qed.

Lemma strip_last s c : last (strip s) = Some c -> isspace c = false.
Proof. unfold strip, rstrip. rewrite last_rev. apply lstrip_head. Qed.

Lemma strip_trimmed s : trimmed_of s (strip s).
Proof.
  destruct (lstrip_removes s) as (pre & Hpre & Hp).
  destruct (rstrip_removes (lstrip s)) as (post & Hpost & Hq).
  exists pre, post. split; [|split; [done|split; [done|]]].
  - unfold strip. by rewrite <- Hpost.
  - pose proof (strip_head s) as Hh. pose proof (strip_last s) as Hl.
    destruct (strip s) as [|a t]; [done|]. cbn [head].
    destruct (last (a :: t)) as [z|] eqn:Hz.
    + split; [by apply Hh | by apply Hl].
    + by apply last_None in Hz.
Qed.

(** ** The time stamp *)

Lemma tens_and_units n : n = 10 * (n / 10) + n mod 10 /\ n mod 10 < 10.
Proof. split; [apply N.div_mod | apply N.mod_lt]; lia. Qed.

Lemma digit_isdigit n : isdigit (digit n) = true.
Proof.
  unfold isdigit, digit. destruct (tens_and_units n) as [_ Hr].
  revert Hr. generalize (n mod 10). intros r Hr.
  apply andb_true_intro. split; apply N.leb_le; lia.
Qed.

Lemma pad2_digits n : n < 100 -> digits_of 2 n (pad2 n).
Proof.
  intros Hn. unfold digits_of, pad2. split; [done|]. split.
  - cbn [forallb]. by rewrite !digit_isdigit.
  - unfold decimal, digit. cbn [fold_left].
    assert (n / 10 < 10) as Hq
      by (apply N.Div0.div_lt_upper_bound; lia).
    rewrite (N.mod_small _ _ Hq).
    destruct (tens_and_units n) as [H0 Hr0].
    revert H0 Hr0 Hq. generalize (n mod 10) (n / 10). lia.
Qed.

Lemma pad4_digits n : n < 10000 -> digits_of 4 n (pad4 n).
Proof.
  intros Hn. unfold digits_of, pad4. split; [done|]. split.
  - cbn [forallb]. by rewrite !digit_isdigit.
  - unfold decimal, digit. cbn [fold_left].
    assert (n / 1000 < 10) as Hq
      by (apply N.Div0.div_lt_upper_bound; lia).
    rewrite (N.mod_small _ _ Hq).
    destruct (tens_and_units n) as [H0 Hr0].
    destruct (tens_and_units (n / 10)) as [H1 Hr1].
    destruct (tens_and_units (n / 100)) as [H2 Hr2].
    replace (n / 10 / 10) with (n / 100) in H1
      by (by rewrite N.Div0.div_div).
    replace (n / 100 / 10) with (n / 1000) in H2
      by (by rewrite N.Div0.div_div).
    revert H0 Hr0 H1 Hr1 H2 Hr2 Hq.
    generalize (n mod 10) ((n / 10) mod 10) ((n / 100) mod 10).
    generalize (n / 10) (n / 100) (n / 1000). lia.
Qed.

Lemma strftime_stamp d : four_digit_now d -> stamp_of d (strftime d).
Proof.
  intros (Hy & Hm & Hd & Hh & Hmi).
  exists (pad4 (year d)), (pad2 (month d)), (pad2 (day d)),
    (pad2 (hour d)), (pad2 (minute d)).
  split; [reflexivity|].
  split; [apply pad4_digits; lia|].
  repeat split; apply pad2_digits; lia.
Qed.

(** ** Rules of the weakest precondition *)

Section wp_rules.
Context {A B : Type}.
Implicit Types (Q : Result B -> World -> Prop) (w : World).

Lemma wp_ret (a : B) Q w : Q (Ok a) w -> wp (mret a) Q w.
Proof. done. Qed.

Lemma wp_raise e Q w : Q (Raise e) w -> wp (raise e) Q w.
Proof. done. Qed.

Lemma wp_gets (g : World -> B) Q w : Q (Ok (g w)) w -> wp (gets g) Q w.
Proof. done. Qed.

Lemma wp_bind (m : M A) (f : A -> M B) Q w :
  wp m (fun r w' => match r with
                    | Ok a => wp (f a) Q w'
                    | Raise e => Q (Raise e) w'
                    end) w ->
  wp (m ≫= f) Q w.
Proof.
  unfold wp, result, run, mbind, M_bind.
  by destruct (m w) as [[a|e] w'].
Qed.

Lemma wp_finally (body : M B) (cleanup : M unit) Q w :
  wp body (fun r w' =>
    wp cleanup (fun r' w'' => match r' with
                              | Ok _ => Q r w''
                              | Raise e => Q (Raise e) w''
                              end) w') w ->
  wp (finally body cleanup) Q w.
Proof.
  unfold wp, result, run, finally.
  destruct (body w) as [r w']; simpl.
  by destruct (cleanup w') as [[[]|e] w''].
Qed.
End wp_rules.

Lemma wp_modify (f : World -> World) (Q : Result unit -> World -> Prop) w :
  Q (Ok tt) (f w) -> wp (modify f) Q w.
Proof. done. Qed.

Lemma wp_emit e (Q : Result unit -> World -> Prop) w :
  Q (Ok tt) (set_trace (trace w ++ [e]) w) -> wp (emit e) Q w.
Proof. done. Qed.

Lemma events_of_app {A} (m : M A) w evs :
  trace (run m w) = trace w ++ evs -> events_of m w = evs.
Proof. unfold events_of. intros ->. apply drop_app_length. Qed.

Create HintDb bot discriminated.
#[local] Hint Unfold handle_media pipeline TemporaryDirectory get_model
  WhisperModel_new transcribe subprocess_exec path_exists download_to_drive
  get_file reply_text update_message_reply_text ffmpeg_available mode_cmd
  lang_cmd : bot.

(** Case analysis on the test of a conditional: on the scrutinee of the
    innermost [match] when there is one. *)
Ltac destruct_cond b :=
  lazymatch b with
  | negb ?c => destruct_cond c
  | match ?x with _ => _ end => destruct x eqn:?
  | _ => destruct b eqn:?
  end.

(** Projections of an explicit world and of the input records. *)
Ltac wp_simpl :=
  cbn beta iota delta [set_trace set_fs set_model set_MODE set_TARGET_LANG
    set_next_id fs_add trace fs model MODE TARGET_LANG MODEL_SIZE DEVICE
    COMPUTE_TYPE next_id path_dir path_name message voice audio video
    document args negb].

(** One step of symbolic execution. *)
Ltac wp_step :=
  lazymatch goal with
  | |- wp (_ ≫= _) _ _ => apply wp_bind
  | |- wp (mret _) _ _ => apply wp_ret
  | |- wp (raise _) _ _ => apply wp_raise
  | |- wp (gets _) _ _ => apply wp_gets
  | |- wp (modify _) _ _ => apply wp_modify
  | |- wp (emit _) _ _ => apply wp_emit
  | |- wp (finally _ _) _ _ => apply wp_finally
  | |- wp (if ?b then _ else _) _ _ => destruct_cond b
  | |- wp (match ?x with _ => _ end) _ _ => destruct x eqn:?
  | |- wp (let _ := _ in _) _ _ => cbv zeta
  | |- wp _ _ _ => progress autounfold with bot
  end; wp_simpl.

Ltac wp_run := wp_simpl; repeat wp_step.

(** The log at the end of a path is the initial log followed by the events
    of the path. *)
Ltac trace_eq :=
  first [ rewrite <- ?app_assoc; cbn [app]; reflexivity
        | symmetry; apply app_nil_r ].

Ltac new_events := eexists; (split; [trace_eq|]).

Lemma out_wav_present (s : gset pystr) : str "out.wav" ∈ {[str "out.wav"]} ∪ s.
Proof. set_solver. Qed.

Lemma out_wav_absent ext :
  str "out.wav" ∉ ({[str "in." ++ ext]} ∪ ∅ : gset pystr).
Proof.
  intros H. apply elem_of_union in H as [H|H]; [|set_solver].
  apply elem_of_singleton in H. by vm_compute in H.
Qed.

(** What a path has learnt about the scoped directory and the return
    code. *)
Ltac fs_facts :=
  repeat match goal with
  | H : _ !! _ = _ |- _ =>
      rewrite ?lookup_alter_eq, ?lookup_insert_eq in H; cbn in H; simplify_eq
  | H : bool_decide _ = true |- _ => apply bool_decide_eq_true in H
  | H : bool_decide _ = false |- _ => apply bool_decide_eq_false in H
  | H : (_ =? _)%Z = true |- _ => apply Z.eqb_eq in H
  | H : (_ =? _)%Z = false |- _ => apply Z.eqb_neq in H
  | H : _ ∉ _ |- _ => destruct (H (out_wav_present _))
  | H : _ ∈ _ |- _ => destruct (out_wav_absent _ H)
  end.

(** ** Media resolution *)

(** C10: an update that carries no message makes [handle_media] return at
    once: the result is a plain return and the world, its log of replies
    and other outside calls included, is exactly the one before the call. *)
Theorem handle_media_without_message env w :
  handle_media env {| message := None |} w = (Ok tt, w).
Proof. reflexivity. Qed.

(** C1: for every message the handler fetches the attachment that comes
    first in the order voice note, audio file, video file, document with
    [audio] in its MIME type, and nothing but that one: the fetch is the
    first event and every later event leaves the other attachments alone.
    When none of the four is present the only event is the guidance reply
    and nothing else in the world changes. *)
Theorem handle_media_priority env msg w :
  let w' := run (handle_media env {| message := Some msg |}) w in
  let evs := events_of (handle_media env {| message := Some msg |}) w in
  match first_present msg with
  | Some (k, id) =>
      exists rest, evs = EGetFile k id :: rest /\
        Forall (only_payload {| file_kind := k; file_id := id |}) rest
  | None =>
      evs = [EReply no_media_text] /\
      w' = set_trace (trace w ++ [EReply no_media_text]) w
  end.
Proof.
  intros w' evs.
  cut (wp (handle_media env {| message := Some msg |})
         (fun _ w' => exists evs, trace w' = trace w ++ evs /\
            match first_present msg with
            | Some (k, id) =>
                exists rest, evs = EGetFile k id :: rest /\
                  Forall (only_payload {| file_kind := k; file_id := id |}) rest
            | None =>
                evs = [EReply no_media_text] /\
                w' = set_trace (trace w ++ [EReply no_media_text]) w
            end) w).
  { intros (evs0 & Htr & H). subst evs. by rewrite (events_of_app _ _ _ Htr). }
  unfold first_present.
  destruct msg as [v a vi d],
    w as [size device ctype lang mode cached dirs tr ident].
  wp_run.
  all: try match goal with
         | H : mime_type_has_audio ?d = _ |- _ =>
             rewrite mime_type_has_audio_spec in H;
             destruct (document_mime_type d); try discriminate H; try rewrite H
         end.
  all: new_events.
  all: try (split; reflexivity).
  all: eexists; (split; [reflexivity|]).
  all: repeat (constructor; cbn [only_payload]); done.
Qed.

(** ** The scoped temporary directory *)

(** C5: when the directory name is fresh, the file system after the
    handler is the one before it, whatever the outside world answers and
    whether the handler returns or raises; and in every run that created
    the directory, removing it is the last thing the handler does. *)
Theorem scoped_directory_released env update w :
  fs w !! env_tmpdir env = None ->
  fs (run (handle_media env update) w) = fs w /\
  (EMkdtemp (env_tmpdir env) ∈ events_of (handle_media env update) w ->
   last (events_of (handle_media env update) w)
   = Some (ERmtree (env_tmpdir env))).
Proof.
  intros Hfresh.
  cut (wp (handle_media env update)
         (fun _ w' => fs w' = fs w /\ exists evs, trace w' = trace w ++ evs /\
            (EMkdtemp (env_tmpdir env) ∈ evs ->
             last evs = Some (ERmtree (env_tmpdir env)))) w).
  { intros (Hfs & evs0 & Htr & H). by rewrite (events_of_app _ _ _ Htr). }
  destruct update as [[[v a vi d]|]],
    w as [size device ctype lang mode cached dirs tr ident].
  cbn in Hfresh.
  all: wp_run.
  all: split;
    [ rewrite ?delete_alter_eq, ?delete_insert_eq; try apply delete_id; done
    | new_events ].
  all: intros Hin; first [ reflexivity | exfalso; revert Hin ].
  all: rewrite ?elem_of_cons, elem_of_nil; intros Hin; by intuition.
Qed.

Lemma scoped_directory_released_witness :
  fs world0 !! env_tmpdir env_no_model = None /\
  fs (run (handle_media env_no_model voice_update) world0) = fs world0.
Proof.
  split; [by vm_compute|].
  apply (scoped_directory_released env_no_model voice_update world0).
  by vm_compute.
Defined.

(** ** Transcoding *)

(** C3: once ffmpeg has been started and has exited, the model is called
    exactly when it returned zero and created its output file, the file
    [out_wav.exists()] then finds in the scoped directory.  In every other
    such case, a zero return code without output file among them, the
    subprocess was started once, the conversion-error reply follows it and
    the run ends with the release of the directory.  When ffmpeg cannot
    be started at all, the handler ends with [OSError]: the model is not
    called, no reply is sent, and the release of the directory is the
    only thing that follows the one attempt. *)
Theorem transcode_success_iff env update w :
  existsb is_spawn (events_of (handle_media env update) w) = true ->
  match env_proc env with
  | Some (returncode, wrote) =>
      (existsb is_model_call (events_of (handle_media env update) w) = true
       <-> returncode = 0%Z /\ wrote = true) /\
      (~ (returncode = 0%Z /\ wrote = true) ->
       exists pre cmd,
         events_of (handle_media env update) w =
           pre ++ [ESpawn cmd; EReply conversion_error_text;
                   ERmtree (env_tmpdir env)] /\
         existsb is_spawn pre = false)
  | None =>
      result (handle_media env update) w = Raise OSError /\
      existsb is_model_call (events_of (handle_media env update) w) = false /\
      replies (events_of (handle_media env update) w) = [] /\
      exists pre cmd,
        events_of (handle_media env update) w =
          pre ++ [ESpawn cmd; ERmtree (env_tmpdir env)] /\
        existsb is_spawn pre = false
  end.
Proof.
  cut (wp (handle_media env update)
         (fun r w' => exists evs, trace w' = trace w ++ evs /\
            (existsb is_spawn evs = true ->
             match env_proc env with
             | Some (returncode, wrote) =>
                 (existsb is_model_call evs = true
                  <-> returncode = 0%Z /\ wrote = true) /\
                 (~ (returncode = 0%Z /\ wrote = true) ->
                  exists pre cmd,
                    evs = pre ++ [ESpawn cmd; EReply conversion_error_text;
                                  ERmtree (env_tmpdir env)] /\
                    existsb is_spawn pre = false)
             | None =>
                 r = Raise OSError /\
                 existsb is_model_call evs = false /\
                 replies evs = [] /\
                 exists pre cmd,
                   evs = pre ++ [ESpawn cmd; ERmtree (env_tmpdir env)] /\
                   existsb is_spawn pre = false
             end)) w).
  { intros (evs0 & Htr & H). rewrite (events_of_app _ _ _ Htr). apply H. }
  destruct update as [[[v a vi d]|]],
    w as [size device ctype lang mode cached dirs tr ident].
  all: wp_run.
  all: new_events.
  all: cbn [existsb is_spawn is_model_call orb replies omap list_omap];
    first [ by intros [=] | intros _ ].
  all: cbv beta iota.
  all: fs_facts.
  all: try (split; [reflexivity|]; split; [reflexivity|];
            split; [reflexivity|]; by eexists [_; _; _; _], _).
  all: (split; [intuition congruence|]).
  all: first [ by (intros Hn; exfalso; apply Hn)
             | intros _; by eexists [_; _; _; _], _ ].
Qed.

Lemma transcode_success_iff_witness :
  existsb is_spawn (events_of (handle_media env_no_output voice_update) world0)
    = true /\
  (existsb is_model_call
     (events_of (handle_media env_no_output voice_update) world0) = true
   <-> 0%Z = 0%Z /\ false = true).
Proof.
  assert (existsb is_spawn
            (events_of (handle_media env_no_output voice_update) world0)
          = true) as Hs by by vm_compute.
  split; [exact Hs|].
  exact (proj1 (transcode_success_iff env_no_output voice_update world0 Hs)).
Defined.

(** The claim as the specification words it, that every transcode failure
    produces the conversion-error reply, fails where ffmpeg is found but
    cannot be started: the transcoding step was entered and did not
    succeed, the request ends with [OSError], and the conversion-error
    reply is not among the replies. *)
Lemma spawn_failure_sends_no_reply :
  existsb is_spawn
    (events_of (handle_media env_spawn_fails voice_update) world0) = true /\
  existsb is_model_call
    (events_of (handle_media env_spawn_fails voice_update) world0) = false /\
  result (handle_media env_spawn_fails voice_update) world0 = Raise OSError /\
  ~ (conversion_error_text
       ∈ replies (events_of (handle_media env_spawn_fails voice_update)
                    world0)).
Proof.
  split; [by vm_compute|]. split; [by vm_compute|]. split; [by vm_compute|].
  assert (replies (events_of (handle_media env_spawn_fails voice_update)
                     world0) = []) as -> by by vm_compute.
  apply not_elem_of_nil.
Qed.

(** ** The model call *)

(** C4: every model call of a handler run has the task [translate] when
    the mode is [translate] and [transcribe] otherwise, the preferred
    language as its language, or none when that is the empty string, beam
    size 5 and the voice-activity filter switched on. *)
Theorem model_call_arguments env update w :
  Forall (model_call_ok (MODE w) (TARGET_LANG w))
         (events_of (handle_media env update) w).
Proof.
  cut (wp (handle_media env update)
         (fun _ w' => exists evs, trace w' = trace w ++ evs /\
            Forall (model_call_ok (MODE w) (TARGET_LANG w)) evs) w).
  { intros (evs0 & Htr & H). by rewrite (events_of_app _ _ _ Htr). }
  destruct update as [[[v a vi d]|]],
    w as [size device ctype lang mode cached dirs tr ident].
  all: wp_run.
  all: new_events.
  all: repeat (constructor; cbn [model_call_ok]); try done.
  all: repeat split; try done.
  all: try by (intros ->; rewrite bool_decide_eq_true_2).
  all: try by (intros ?; rewrite bool_decide_eq_false_2).
  all: try by intros ->.
  all: by destruct lang.
Qed.

(** ** The reply *)

(** C2: in a run whose model call yielded its segments, the one reply is
    the memo sign, the time in the format [YYYY-MM-DD HH:MM], a line break
    and the body.  The body is the segment texts joined in order without
    separator and trimmed of leading and trailing white space (what is cut
    off is white space, what is left neither starts nor ends with it), or
    the placeholder when nothing is left, hence never empty.  The segments
    ["hello "] and ["world"] give [hello world]. *)
Theorem success_reply_text env update w segments :
  existsb is_transcribe (events_of (handle_media env update) w) = true ->
  env_segments env = Some segments ->
  four_digit_now (env_now env) ->
  (exists stamp trimmed,
     stamp_of (env_now env) stamp /\
     trimmed_of (concat (map text segments)) trimmed /\
     let body := match trimmed with
                 | [] => str "(לא זוהה טקסט)"
                 | c :: s => c :: s
                 end in
     replies (events_of (handle_media env update) w) =
       [str "📝 " ++ stamp ++ [10] ++ body] /\
     body <> []) /\
  transcript_text [ {| text := str "hello " |}; {| text := str "world" |} ]
    = str "hello world".
Proof.
  intros Hcall Hsegs Hnow. split; [|by vm_compute].
  exists (strftime (env_now env)), (strip (concat (map text segments))).
  split; [by apply strftime_stamp|]. split; [apply strip_trimmed|].
  cbv zeta. rewrite <- success_reply_eq. split.
  2:{ by destruct (strip _); [vm_compute|]. }
  revert Hcall.
  cut (wp (handle_media env update)
         (fun _ w' => exists evs, trace w' = trace w ++ evs /\
            (existsb is_transcribe evs = true ->
             replies evs = [success_reply (strftime (env_now env))
                              (transcript_text segments)])) w).
  { intros (evs0 & Htr & H). rewrite (events_of_app _ _ _ Htr). apply H. }
  destruct update as [[[v a vi d]|]],
    w as [size device ctype lang mode cached dirs tr ident].
  all: wp_run.
  all: new_events.
  all: cbn [existsb is_transcribe orb replies omap list_omap];
    first [ by intros [=] | intros _ ].
  all: congruence.
Qed.

Lemma success_reply_text_witness :
  existsb is_transcribe (events_of (handle_media env_padded voice_update) world0)
    = true /\
  env_segments env_padded = Some padded_hello /\
  four_digit_now (env_now env_padded) /\
  exists stamp trimmed,
    stamp_of (env_now env_padded) stamp /\
    trimmed_of (concat (map text padded_hello)) trimmed /\
    let body := match trimmed with
                | [] => str "(לא זוהה טקסט)"
                | c :: s => c :: s
                end in
    replies (events_of (handle_media env_padded voice_update) world0) =
      [str "📝 " ++ stamp ++ [10] ++ body] /\
    body <> [].
Proof.
  assert (existsb is_transcribe
            (events_of (handle_media env_padded voice_update) world0) = true)
    as Hcall by by vm_compute.
  assert (four_digit_now (env_now env_padded)) as Hnow
    by (unfold four_digit_now; cbn; lia).
  split; [exact Hcall|]. split; [reflexivity|]. split; [exact Hnow|].
  exact (proj1 (success_reply_text env_padded voice_update world0
                  padded_hello Hcall eq_refl Hnow)).
Defined.

(** ** The model singleton *)

Lemma get_model_cached env h w :
  model w = Some h -> get_model env w = (Ok (Some h), w).
Proof.
  intros Hm. unfold get_model, gets, mbind, M_bind.
  by rewrite Hm; cbn; rewrite Hm.
Qed.

Lemma get_model_first env w :
  model w = None -> env_construct env = true ->
  get_model env w =
    (Ok (Some (constructed w)),
     set_model (Some (constructed w))
       (set_next_id (next_id w + 1)
          (set_trace
             (trace w ++ [EConstruct (MODEL_SIZE w) (DEVICE w) (COMPUTE_TYPE w)])
             w))).
Proof.
  intros Hm Hc. destruct w; cbn in Hm; subst.
  unfold get_model, WhisperModel_new, emit, modify, gets, mbind, M_bind,
    mret, M_ret.
  cbn. by rewrite Hc.
Qed.

Lemma get_model_calls_cached envs h w :
  model w = Some h ->
  get_model_calls envs w = (replicate (length envs) (Ok (Some h)), w).
Proof.
  intros Hm. induction envs as [|env envs IH]; [done|].
  cbn [get_model_calls length replicate].
  by rewrite (get_model_cached _ _ _ Hm), IH.
Qed.

(** C6: when no model is cached and the first call's construction
    succeeds, every call of any sequence of calls returns the same model,
    the one built from [MODEL_SIZE], [DEVICE] and [COMPUTE_TYPE]; it is
    the cached model afterwards, and the whole sequence has called the
    constructor once. *)
Theorem get_model_constructs_once env envs w :
  model w = None -> env_construct env = true ->
  exists w',
    get_model_calls (env :: envs) w =
      (replicate (S (length envs)) (Ok (Some (constructed w))), w') /\
    model w' = Some (constructed w) /\
    trace w' = trace w ++ [EConstruct (MODEL_SIZE w) (DEVICE w) (COMPUTE_TYPE w)].
Proof.
  intros Hm Hc. eexists. split; [|split].
  - cbn [get_model_calls]. rewrite (get_model_first _ _ Hm Hc).
    rewrite (get_model_calls_cached envs (constructed w)) by by destruct w.
    reflexivity.
  - by destruct w.
  - by destruct w.
Qed.

Lemma get_model_constructs_once_witness :
  model world0 = None /\ env_construct env_ok = true /\
  exists w',
    get_model_calls [env_ok; env_no_model; env_ok] world0 =
      (replicate 3 (Ok (Some (constructed world0))), w') /\
    model w' = Some (constructed world0) /\
    trace w' = trace world0 ++ [EConstruct (str "small") (str "cpu") (str "int8")].
Proof.
  split; [reflexivity|]. split; [reflexivity|].
  apply (get_model_constructs_once env_ok [env_no_model; env_ok] world0);
    reflexivity.
Defined.

(** C7: when no model is cached and construction fails, the call raises
    and leaves the world as it was but for the logged attempt, so the
    cache is still unset; the next call attempts the construction again
    and, when that succeeds, returns the model. *)
Theorem get_model_failure_retries env w :
  model w = None -> env_construct env = false ->
  let attempt := EConstruct (MODEL_SIZE w) (DEVICE w) (COMPUTE_TYPE w) in
  let w' := set_trace (trace w ++ [attempt]) w in
  get_model env w = (Raise ModelError, w') /\
  model w' = None /\
  forall env', events_of (get_model env') w' = [attempt] /\
    (env_construct env' = true ->
     result (get_model env') w' = Ok (Some (constructed w))).
Proof.
  intros Hm Hc attempt w'. subst attempt w'.
  destruct w; cbn in Hm; subst. split; [|split; [done|]].
  - unfold get_model, WhisperModel_new, emit, modify, gets, raise, mbind, M_bind.
    cbn. by rewrite Hc.
  - intros env'. split.
    + apply events_of_app. unfold run, get_model, WhisperModel_new, emit,
        modify, gets, raise, mbind, M_bind, mret, M_ret. cbn.
      by destruct (env_construct env').
    + intros Hc'. unfold result. by rewrite get_model_first.
Qed.

Lemma get_model_failure_retries_witness :
  model world0 = None /\ env_construct env_no_model = false /\
  get_model env_no_model world0 =
    (Raise ModelError,
     set_trace [EConstruct (str "small") (str "cpu") (str "int8")] world0).
Proof.
  split; [reflexivity|]. split; [reflexivity|].
  apply (get_model_failure_retries env_no_model world0); reflexivity.
Defined.

(** ** The run mode *)

Lemma mode_cmd_wp env update context w :
  wp (mode_cmd env update context)
     (fun _ w' =>
        MODE w' = default (MODE w) (accepted_mode (args context)) /\
        set_trace (trace w') (set_MODE (MODE w') w) = w' /\
        exists evs, trace w' = trace w ++ evs /\
          (accepted_mode (args context) = None ->
           replies evs = match message update with
                         | Some _ => [mode_usage_text]
                         | None => []
                         end)) w.
Proof.
  unfold accepted_mode.
  destruct context as [argv], update as [msg],
    w as [size device ctype lang mode cached dirs tr ident].
  wp_simpl. destruct argv as [|a rest]; [|rewrite <- mode_membership].
  all: wp_run.
  all: cbn [default from_option]; (split; [reflexivity|]).
  all: unfold set_trace, set_MODE;
    cbn [trace MODE MODEL_SIZE DEVICE COMPUTE_TYPE TARGET_LANG model fs
         next_id].
  all: (split; [reflexivity|]).
  all: new_events.
  all: first [ by intros [=] | intros _; reflexivity ].
Qed.

(** C8: [/mode] stores its first argument when that is exactly
    [transcribe] or [translate] and otherwise, without argument too, keeps
    the stored mode; it changes nothing but the mode and the log, and a
    rejected command is answered with the usage text.  Setting
    [translate] and then [transcribe] leaves [transcribe]. *)
Theorem mode_cmd_validation env update context w :
  let w' := run (mode_cmd env update context) w in
  MODE w' = default (MODE w) (accepted_mode (args context)) /\
  set_trace (trace w') (set_MODE (MODE w') w) = w' /\
  (accepted_mode (args context) = None ->
   replies (events_of (mode_cmd env update context) w) =
     match message update with
     | Some _ => [mode_usage_text]
     | None => []
     end) /\
  (forall env1 env2 u1 u2,
     MODE (run (mode_cmd env2 u2 {| args := [str "transcribe"] |})
            (run (mode_cmd env1 u1 {| args := [str "translate"] |}) w))
     = str "transcribe").
Proof.
  intros w'. subst w'.
  destruct (mode_cmd_wp env update context w) as (HM & Hw & evs & Htr & Hr).
  rewrite (events_of_app _ _ _ Htr).
  repeat split; try done.
  intros env1 env2 u1 u2.
  destruct (mode_cmd_wp env2 u2 {| args := [str "transcribe"] |}
              (run (mode_cmd env1 u1 {| args := [str "translate"] |}) w))
    as (-> & _).
  cbn [args accepted_mode].
  rewrite bool_decide_eq_true_2 by (by left). reflexivity.
Qed.

Lemma mode_cmd_validation_witness :
  accepted_mode [str "Translate"] = None /\
  MODE (run (mode_cmd env_ok voice_update {| args := [str "Translate"] |}) world0)
  = str "transcribe" /\
  replies (events_of
    (mode_cmd env_ok voice_update {| args := [str "Translate"] |}) world0)
  = [mode_usage_text].
Proof.
  split; [by vm_compute|].
  pose proof (mode_cmd_validation env_ok voice_update
                {| args := [str "Translate"] |} world0) as (HM & _ & Hr & _).
  split; [rewrite HM; by vm_compute | apply Hr; by vm_compute].
Defined.

(** ** The extension hint *)

(** With a declared, non-empty file name a document and an audio file get
    the same extension: the lower-cased part after the last dot. *)
Lemma document_ext_as_audio_with_filename env d a name :
  name <> [] ->
  document_file_name d = Some name -> audio_file_name a = Some name ->
  document_suggested_ext env d = audio_suggested_ext env a /\
  audio_suggested_ext env a =
    lower (env_unicode_lower env) (last_item (split 46 name)).
Proof.
  intros Hne Hd Ha. unfold document_suggested_ext, audio_suggested_ext.
  rewrite Hd, Ha. by destruct name.
Qed.

(** C9: the one case in which the two derivations part.  For a document
    without declared file name the extension is [audio], the lower-cased
    tail of the stand-in name; for an audio file without declared file
    name it is the default [mp3]. *)
Theorem document_without_filename_ext env d a :
  document_file_name d = None -> audio_file_name a = None ->
  document_suggested_ext env d = str "audio" /\
  audio_suggested_ext env a = str "mp3".
Proof.
  intros Hd Ha. unfold document_suggested_ext, audio_suggested_ext.
  rewrite Hd, Ha. split; [by vm_compute | reflexivity].
Qed.

Lemma document_without_filename_ext_witness :
  document_file_name nameless_document = None /\
  audio_file_name nameless_audio = None /\
  document_suggested_ext env_ok nameless_document = str "audio" /\
  audio_suggested_ext env_ok nameless_audio = str "mp3".
Proof.
  split; [reflexivity|]. split; [reflexivity|].
  apply (document_without_filename_ext env_ok nameless_document nameless_audio);
    reflexivity.
Defined.

(** ** Runs on the sample inputs *)

Example nameless_document_download :
  EDownload {| file_kind := KDocument; file_id := str "d1" |}
            {| path_dir := str "/tmp/tmpk3v9"; path_name := str "in.audio" |}
  ∈ events_of (handle_media env_ok nameless_document_update) world0.
Proof. vm_compute. do 2 right. left. Qed.

Example voice_note_run :
  events_of (handle_media env_ok voice_update) world0 =
  [ EGetFile KVoice (str "v1");
    EMkdtemp (str "/tmp/tmpk3v9");
    EDownload {| file_kind := KVoice; file_id := str "v1" |}
              {| path_dir := str "/tmp/tmpk3v9"; path_name := str "in.ogg" |};
    EWhich (str "ffmpeg");
    ESpawn [str "ffmpeg"; str "-y"; str "-i"; str "/tmp/tmpk3v9/in.ogg";
            str "-ac"; str "1"; str "-ar"; str "16000";
            str "/tmp/tmpk3v9/out.wav"];
    EConstruct (str "small") (str "cpu") (str "int8");
    ETranscribe (constructed world0) (str "/tmp/tmpk3v9/out.wav")
      (Some (str "he")) (str "transcribe") 5 true;
    EReply (str "📝 2024-03-07 09:05" ++ [10] ++ str "hello world");
    ERmtree (str "/tmp/tmpk3v9") ].
Proof. by vm_compute. Qed.

Example model_failure_run :
  result (handle_media env_no_model voice_update) world0 = Raise ModelError /\
  last (events_of (handle_media env_no_model voice_update) world0)
  = Some (ERmtree (str "/tmp/tmpk3v9")).
Proof. by vm_compute. Qed.

Example missing_output_run :
  replies (events_of (handle_media env_no_output voice_update) world0)
  = [conversion_error_text].
Proof. by vm_compute. Qed.

Example padded_segments_run :
  replies (events_of (handle_media env_padded voice_update) world0) =
    [str "📝 2024-03-07 09:05" ++ [10] ++ str "hello world"].
Proof. by vm_compute. Qed.

(** * Further properties of the code *)

(** ** Stripping and the transcript *)

Lemma lstrip_spaces s : forallb isspace s = true -> lstrip s = [].
Proof.
  induction s as [|a s IH]; [done|]. cbn [forallb lstrip].
  intros [Ha Hs]%andb_prop. rewrite Ha. auto.
Qed.

Lemma concat_spaces (parts : list pystr) :
  Forall (fun p => forallb isspace p = true) parts ->
  forallb isspace (concat parts) = true.
Proof.
  induction 1 as [|p parts Hp _ IH]; [done|].
  cbn [concat]. rewrite forallb_app. by rewrite Hp, IH.
Qed.

(** X1: when every segment the model yields consists of white space only
    (no segment at all included), the body of the reply is the
    placeholder. *)
Theorem blank_transcript_placeholder segments :
  Forall (fun seg => forallb isspace (text seg) = true) segments ->
  transcript_text segments = no_text_placeholder.
Proof.
  intros Hs. unfold transcript_text, join, strip.
  rewrite lstrip_spaces; [done|].
  apply concat_spaces. by apply Forall_fmap.
Qed.

Lemma blank_transcript_placeholder_witness :
  Forall (fun seg => forallb isspace (text seg) = true) blank_segments /\
  transcript_text blank_segments = no_text_placeholder.
Proof.
  assert (Forall (fun seg => forallb isspace (text seg) = true)
            blank_segments) as Hs
    by (repeat (constructor; [by vm_compute|]); constructor).
  split; [exact Hs|]. exact (blank_transcript_placeholder blank_segments Hs).
Defined.

(** X2: the body of the reply is never empty and neither starts nor ends
    with a white-space character, whatever the segments are. *)
Theorem transcript_text_trimmed segments :
  match head (transcript_text segments), last (transcript_text segments) with
  | Some a, Some z => isspace a = false /\ isspace z = false
  | _, _ => False
  end.
Proof.
  unfold transcript_text.
  pose proof (strip_head (join (map text segments))) as Hh.
  pose proof (strip_last (join (map text segments))) as Hl.
  destruct (strip (join (map text segments))) as [|a s].
  - by vm_compute.
  - cbn [head]. destruct (last (a :: s)) as [z|] eqn:Hz.
    + split; [by apply Hh | by apply Hl].
    + by apply last_None in Hz.
Qed.

(** ** The MIME test on documents *)

Lemma startswith_spec p s :
  startswith p s = true <-> exists post, s = p ++ post.
Proof.
  revert s. induction p as [|a p IH]; intros s; cbn [startswith].
  - split; [by exists s | done].
  - destruct s as [|b s].
    + split; [done | by intros [post [=]]].
    + rewrite andb_true_iff, N.eqb_eq, IH. split.
      * intros [-> [post ->]]. by exists post.
      * intros [post [= -> ->]]. split; [done | by exists post].
Qed.

Lemma contains_spec needle hay :
  contains needle hay = true <-> exists pre post, hay = pre ++ needle ++ post.
Proof.
  induction hay as [|b hay IH]; cbn [contains];
    rewrite orb_true_iff, startswith_spec.
  - split.
    + intros [[post ->]|[=]]. by exists [], post.
    + intros (pre & post & H). left. exists post.
      destruct pre; [done|discriminate H].
  - rewrite IH. split.
    + intros [[post ->]|(pre & post & ->)];
        [by exists [], post | by exists (b :: pre), post].
    + intros (pre & post & H). destruct pre as [|a pre].
      * left. by exists post.
      * right. injection H as -> ->. by exists pre, post.
Qed.

(** X3: a document passes the test of line 81 exactly when it declares a
    MIME type in which the letters [audio] occur somewhere, in lower case:
    at the start or not, so [application/x-audio] passes and [Audio/ogg]
    does not. *)
Theorem audio_document_iff_mime_substring d :
  mime_type_has_audio d = true <->
  exists pre post, document_mime_type d = Some (pre ++ str "audio" ++ post).
Proof.
  rewrite mime_type_has_audio_spec.
  destruct (document_mime_type d) as [mime|].
  - rewrite contains_spec. split.
    + intros (pre & post & ->). by exists pre, post.
    + intros (pre & post & [= ->]). by exists pre, post.
  - split; [done | by intros (? & ? & [=])].
Qed.

(** ** The extension hint, continued *)

Lemma split_no_sep sep s : sep ∉ s -> split sep s = [s].
Proof.
  induction s as [|c s IH]; [done|]. intros Hn. cbn [split].
  apply not_elem_of_cons in Hn as [Hne Hn].
  destruct (N.eqb_spec c sep) as [->|_]; [done|]. by rewrite IH.
Qed.

Lemma split_app sep pre suf :
  split sep (pre ++ sep :: suf) = split sep pre ++ split sep suf.
Proof.
  induction pre as [|c pre IH]; cbn [app split].
  - by rewrite N.eqb_refl.
  - rewrite IH. destruct (c =? sep); [done|].
    pose proof (split_nonempty sep pre). by destruct (split sep pre).
Qed.

Lemma last_item_split_app sep pre suf :
  sep ∉ suf -> last_item (split sep (pre ++ sep :: suf)) = suf.
Proof.
  intros Hn. unfold last_item.
  rewrite split_app, (split_no_sep _ _ Hn). apply List.last_last.
Qed.

Lemma last_item_split_no_sep sep s : sep ∉ last_item (split sep s).
Proof.
  unfold last_item. induction s as [|c s IH]; cbn [split].
  - apply not_elem_of_nil.
  - pose proof (split_nonempty sep s) as Hne.
    destruct (N.eqb_spec c sep) as [->|Hc];
      destruct (split sep s) as [|h [|h' t]]; try done.
    cbn in IH |- *. apply not_elem_of_cons. split; [congruence | done].
Qed.

Lemma last_item_split_forallb (P : N -> bool) sep s :
  forallb P s = true -> forallb P (last_item (split sep s)) = true.
Proof.
  unfold last_item. induction s as [|c s IH]; cbn [split forallb]; [done|].
  intros [Hc Hs]%andb_prop. specialize (IH Hs).
  pose proof (split_nonempty sep s) as Hne.
  destruct (c =? sep); destruct (split sep s) as [|h [|h' t]]; try done.
  cbn in IH |- *. by rewrite Hc, IH.
Qed.

Lemma ascii_lower_no_dot s : 46 ∉ s -> 46 ∉ map ascii_lower s.
Proof.
  induction s as [|c s IH]; [done|]. cbn [map].
  rewrite !not_elem_of_cons. intros [Hc Hs]. split; [|auto].
  unfold ascii_lower.
  destruct (N.leb_spec 65 c); destruct (N.leb_spec c 90); cbn [andb]; lia.
Qed.

Lemma ext_no_dot ul x :
  forallb is_ascii x = true -> 46 ∉ lower ul (last_item (split 46 x)).
Proof.
  intros Hx. unfold lower.
  rewrite (last_item_split_forallb _ _ _ Hx).
  apply ascii_lower_no_dot, last_item_split_no_sep.
Qed.

Lemma no_dot_in_MP3 : 46 ∉ str "MP3".
Proof.
  assert (str "MP3" = [77; 80; 51]) as -> by by vm_compute.
  rewrite !not_elem_of_cons. repeat split; try done. apply not_elem_of_nil.
Qed.

Lemma no_dot_in_Recording : 46 ∉ str "Recording".
Proof.
  assert (str "Recording" = [82; 101; 99; 111; 114; 100; 105; 110; 103])
    as -> by by vm_compute.
  rewrite !not_elem_of_cons. repeat split; try done. apply not_elem_of_nil.
Qed.

(** X4: for a declared name with a dot, the extension of an audio file
    and of a document is what follows the last dot, in lower case: empty
    when the name ends in a dot, and with whatever other characters, a
    slash included, stand there. *)
Theorem suggested_ext_after_last_dot env a d stem suffix :
  46 ∉ suffix ->
  audio_file_name a = Some (stem ++ 46 :: suffix) ->
  document_file_name d = Some (stem ++ 46 :: suffix) ->
  audio_suggested_ext env a = lower (env_unicode_lower env) suffix /\
  document_suggested_ext env d = lower (env_unicode_lower env) suffix.
Proof.
  intros Hn Ha Hd. unfold audio_suggested_ext, document_suggested_ext.
  rewrite Ha, Hd.
  assert (or_else (Some (stem ++ 46 :: suffix)) (str "audio")
          = stem ++ 46 :: suffix) as -> by by destruct stem.
  rewrite last_item_split_app by done.
  split; [|done]. by destruct stem.
Qed.

Lemma suggested_ext_after_last_dot_witness :
  (46 ∉ str "MP3") /\
  audio_suggested_ext env_ok dotted_audio = str "mp3" /\
  document_suggested_ext env_ok dotted_document = str "mp3".
Proof.
  split; [exact no_dot_in_MP3|].
  destruct (suggested_ext_after_last_dot env_ok dotted_audio dotted_document
              (str "my.song") (str "MP3") no_dot_in_MP3)
    as [Ha Hd]; [by vm_compute | by vm_compute |].
  rewrite Ha, Hd. by vm_compute.
Defined.

(** X5: a declared name without any dot is, in lower case, the extension
    itself: the audio file or document [Recording] is stored as
    [in.recording]. *)
Theorem suggested_ext_without_dot env a d name :
  name <> [] -> 46 ∉ name ->
  audio_file_name a = Some name -> document_file_name d = Some name ->
  audio_suggested_ext env a = lower (env_unicode_lower env) name /\
  document_suggested_ext env d = lower (env_unicode_lower env) name.
Proof.
  intros Hne Hn Ha Hd. unfold audio_suggested_ext, document_suggested_ext.
  rewrite Ha, Hd. destruct name as [|c name]; [done|].
  cbn [truthy or_else]. by rewrite (split_no_sep _ _ Hn).
Qed.

Lemma suggested_ext_without_dot_witness :
  (46 ∉ str "Recording") /\
  audio_suggested_ext env_ok dotless_audio = str "recording" /\
  document_suggested_ext env_ok dotless_document = str "recording".
Proof.
  split; [exact no_dot_in_Recording|].
  destruct (suggested_ext_without_dot env_ok dotless_audio dotless_document
              (str "Recording")) as [Ha Hd];
    [by vm_compute | exact no_dot_in_Recording | reflexivity | reflexivity |].
  rewrite Ha, Hd. by vm_compute.
Defined.

(** X6: when the declared names are ASCII (or absent), the extension
    holds no dot, so that the name of the downloaded file has exactly the
    one dot after [in]. *)
Theorem suggested_ext_has_no_dot env a d :
  forallb is_ascii (default [] (audio_file_name a)) = true ->
  forallb is_ascii (default [] (document_file_name d)) = true ->
  (46 ∉ audio_suggested_ext env a) /\ (46 ∉ document_suggested_ext env d).
Proof.
  intros Ha Hd. unfold audio_suggested_ext, document_suggested_ext.
  assert (forallb is_ascii (str "audio") = true) as Hlit by by vm_compute.
  split.
  - destruct (audio_file_name a) as [[|c s]|]; cbn [truthy or_else].
    2: by apply ext_no_dot.
    all: assert (str "mp3" = [109; 112; 51]) as -> by by vm_compute.
    all: rewrite !not_elem_of_cons; repeat split; try done;
      apply not_elem_of_nil.
  - apply ext_no_dot.
    by destruct (document_file_name d) as [[|c s]|].
Qed.

Lemma suggested_ext_has_no_dot_witness :
  forallb is_ascii (default [] (audio_file_name dotted_audio)) = true /\
  (46 ∉ audio_suggested_ext env_ok dotted_audio) /\
  (46 ∉ document_suggested_ext env_ok nameless_document).
Proof.
  split; [by vm_compute|].
  apply (suggested_ext_has_no_dot env_ok dotted_audio nameless_document);
    by vm_compute.
Defined.

(** ** The model singleton, continued *)

Lemma get_model_fails env w :
  model w = None -> env_construct env = false ->
  get_model env w =
    (Raise ModelError,
     set_trace
       (trace w ++ [EConstruct (MODEL_SIZE w) (DEVICE w) (COMPUTE_TYPE w)])
       w).
Proof.
  intros Hm Hc. destruct w; cbn in Hm; subst.
  unfold get_model, WhisperModel_new, emit, modify, gets, raise, mbind,
    M_bind.
  cbn. by rewrite Hc.
Qed.

(** X7: every call of [get_model] ends in one of three ways.  It returns
    the cached model and leaves the world alone; or, with nothing cached,
    it returns the freshly constructed model; or, with nothing cached and
    the construction failing, it raises and the cache stays empty.  When
    it returns, the returned model is the cached one afterwards, never
    [None]. *)
Theorem get_model_outcome env w :
  match result (get_model env) w with
  | Ok r =>
      r = model (run (get_model env) w) /\
      match model w with
      | Some h => r = Some h /\ run (get_model env) w = w
      | None => r = Some (constructed w) /\ env_construct env = true
      end
  | Raise e =>
      e = ModelError /\ model w = None /\ env_construct env = false /\
      model (run (get_model env) w) = None
  end.
Proof.
  unfold result, run. destruct (model w) as [h|] eqn:Hm.
  - rewrite (get_model_cached _ _ _ Hm). cbn. by rewrite Hm.
  - destruct (env_construct env) eqn:Hc.
    + rewrite (get_model_first _ _ Hm Hc). cbn. by destruct w.
    + rewrite (get_model_fails _ _ Hm Hc). cbn. by destruct w.
Qed.

(** X8: a sequence of calls that starts with an empty cache raises until
    the first construction succeeds and returns that one model from then
    on; the constructor is called once per call up to and including the
    successful one, each time with the three configured parameters, and
    never again. *)
Theorem get_model_calls_until_success envs w :
  model w = None ->
  let attempt := EConstruct (MODEL_SIZE w) (DEVICE w) (COMPUTE_TYPE w) in
  (get_model_calls envs w).1 = outcomes (constructed w) envs /\
  trace (get_model_calls envs w).2
    = trace w ++ replicate (attempts envs) attempt /\
  model (get_model_calls envs w).2
    = if existsb env_construct envs then Some (constructed w) else None.
Proof.
  intros Hm attempt. subst attempt. revert w Hm.
  induction envs as [|env envs IH]; intros w Hm.
  - cbn. by rewrite app_nil_r.
  - cbn [get_model_calls outcomes attempts existsb].
    destruct (env_construct env) eqn:Hc.
    + rewrite (get_model_first _ _ Hm Hc).
      rewrite (get_model_calls_cached envs (constructed w))
        by by destruct w.
      cbn. by destruct w.
    + rewrite (get_model_fails _ _ Hm Hc).
      set (w1 := set_trace _ w).
      specialize (IH w1 ltac:(by destruct w)).
      destruct (get_model_calls envs w1) as [rs w2]. cbn in IH |- *.
      destruct IH as (Hr & Ht & Hmo).
      assert (constructed w1 = constructed w) as Hcw by by destruct w.
      rewrite Hcw in *. split; [by rewrite Hr|]. split; [|done].
      rewrite Ht. subst w1. destruct w; cbn.
      by rewrite <- app_assoc.
Qed.

Lemma get_model_calls_until_success_witness :
  model world0 = None /\
  (get_model_calls [env_no_model; env_ok; env_no_model] world0).1 =
    [Raise ModelError; Ok (Some (constructed world0));
     Ok (Some (constructed world0))].
Proof.
  split; [reflexivity|].
  exact (proj1 (get_model_calls_until_success
                  [env_no_model; env_ok; env_no_model] world0 eq_refl)).
Defined.

(** ** The commands *)

Lemma lang_cmd_wp env update context w :
  wp (lang_cmd env update context)
     (fun _ w' =>
        TARGET_LANG w' = default (TARGET_LANG w) (head (args context)) /\
        set_trace (trace w') (set_TARGET_LANG (TARGET_LANG w') w) = w' /\
        exists evs, trace w' = trace w ++ evs /\
          replies evs =
            match message update, args context with
            | None, _ => []
            | Some _, a :: _ => [lang_updated_text a]
            | Some _, [] => [lang_usage_text]
            end) w.
Proof.
  destruct context as [argv], update as [msg],
    w as [size device ctype lang mode cached dirs tr ident].
  wp_simpl. destruct argv as [|a rest].
  all: wp_run.
  all: cbn [default from_option head]; (split; [reflexivity|]).
  all: unfold set_trace, set_TARGET_LANG;
    cbn [trace MODE MODEL_SIZE DEVICE COMPUTE_TYPE TARGET_LANG model fs
         next_id].
  all: (split; [reflexivity|]).
  all: new_events.
  all: reflexivity.
Qed.

(** X9: [/lang] stores its first argument whatever it is, without any
    check, and keeps the stored language when there is no argument; it
    changes nothing but the language and the log, and answers with the
    confirmation that quotes the argument, or with the usage text. *)
Theorem lang_cmd_overwrites env update context w :
  let w' := run (lang_cmd env update context) w in
  TARGET_LANG w' = default (TARGET_LANG w) (head (args context)) /\
  set_trace (trace w') (set_TARGET_LANG (TARGET_LANG w') w) = w' /\
  replies (events_of (lang_cmd env update context) w) =
    match message update, args context with
    | None, _ => []
    | Some _, a :: _ => [lang_updated_text a]
    | Some _, [] => [lang_usage_text]
    end.
Proof.
  intros w'. subst w'.
  destruct (lang_cmd_wp env update context w) as (HL & Hw & evs & Htr & Hr).
  by rewrite (events_of_app _ _ _ Htr).
Qed.

(** X10: unlike [handle_media], the four command handlers do not test for
    the message object: on an update without one each raises
    [AttributeError] without any outside call, and [/mode] and [/lang]
    have stored their setting by then. *)
Theorem commands_without_message env context w :
  start env no_message context w = (Raise AttributeError, w) /\
  help_cmd env no_message context w = (Raise AttributeError, w) /\
  mode_cmd env no_message context w =
    (Raise AttributeError,
     set_MODE (default (MODE w) (accepted_mode (args context))) w) /\
  lang_cmd env no_message context w =
    (Raise AttributeError,
     set_TARGET_LANG (default (TARGET_LANG w) (head (args context))) w).
Proof.
  split; [reflexivity|]. split; [reflexivity|].
  destruct context as [[|a rest]], w; unfold accepted_mode; cbn [args].
  - by split.
  - rewrite <- mode_membership. split; [|reflexivity].
    unfold mode_cmd. cbn [args].
    by destruct (bool_decide (a ∈ [str "transcribe"; str "translate"])).
Qed.

(** X11: an accepted [/mode] command is answered once, with the
    confirmation that quotes the new mode; the mode is stored whether or
    not the Bot API accepts the reply, and a refused reply surfaces as the
    handler's exception. *)
Theorem mode_cmd_confirms env msg context a w :
  accepted_mode (args context) = Some a ->
  events_of (mode_cmd env {| message := Some msg |} context) w
    = [EReply (mode_updated_text a)] /\
  MODE (run (mode_cmd env {| message := Some msg |} context) w) = a /\
  result (mode_cmd env {| message := Some msg |} context) w
    = if env_reply env then Ok tt else Raise TelegramError.
Proof.
  cut (accepted_mode (args context) = Some a ->
       wp (mode_cmd env {| message := Some msg |} context)
         (fun r w' =>
            (exists evs, trace w' = trace w ++ evs /\
               evs = [EReply (mode_updated_text a)]) /\
            MODE w' = a /\
            r = if env_reply env then Ok tt else Raise TelegramError) w).
  { intros H Ha. destruct (H Ha) as ((evs & Htr & ->) & HM & Hr).
    by rewrite (events_of_app _ _ _ Htr). }
  unfold accepted_mode.
  destruct context as [[|a' rest]],
    w as [size device ctype lang mode cached dirs tr ident]; cbn [args].
  { intros Ha; discriminate Ha. }
  rewrite <- mode_membership. unfold mode_cmd. cbn [args].
  destruct (bool_decide (a' ∈ [str "transcribe"; str "translate"]));
    intros Ha; [injection Ha as ->|discriminate Ha].
  wp_run.
  all: (split; [new_events; reflexivity|]).
  all: (split; [reflexivity|]).
  all: reflexivity.
Qed.

Lemma mode_cmd_confirms_witness :
  accepted_mode [str "translate"] = Some (str "translate") /\
  MODE (run (mode_cmd env_ok voice_update {| args := [str "translate"] |})
          world0)
  = str "translate".
Proof.
  assert (accepted_mode (args {| args := [str "translate"] |})
          = Some (str "translate")) as Ha by by vm_compute.
  split; [exact Ha|].
  exact (proj1 (proj2 (mode_cmd_confirms env_ok _ _ _ world0 Ha))).
Defined.

(** X12: what [/mode] accepts is what the help text and the usage text
    tell the user to type: for every accepted argument [a] both texts
    contain [/mode a]. *)
Theorem help_documents_accepted_modes a rest :
  accepted_mode (a :: rest) = Some a ->
  contains (str "/mode " ++ a) help_text = true /\
  contains (str "/mode " ++ a) mode_usage_text = true.
Proof.
  unfold accepted_mode.
  destruct (bool_decide_reflect (a = str "transcribe" \/ a = str "translate"))
    as [[->| ->]|]; [by vm_compute | by vm_compute | intros H; discriminate H].
Qed.

Lemma help_documents_accepted_modes_witness :
  accepted_mode [str "translate"] = Some (str "translate") /\
  contains (str "/mode " ++ str "translate") help_text = true.
Proof.
  assert (accepted_mode [str "translate"] = Some (str "translate")) as Ha
    by by vm_compute.
  split; [exact Ha|].
  exact (proj1 (help_documents_accepted_modes (str "translate") [] Ha)).
Defined.

(** ** The handler as a whole *)

(** Every path through the handler, from an update and a world given by
    their fields. *)
Ltac handler_leaves update w :=
  destruct update as [[[v a vi d]|]],
    w as [size device ctype lang mode cached dirs tr ident];
  wp_run.

(** X13: without ffmpeg on the server the handler neither starts a
    subprocess nor touches the model; once it has come to look for the
    tool, its one reply is the notice that ffmpeg is missing.  The look-up
    happens after the download. *)
Theorem ffmpeg_missing_stops_pipeline env update w :
  env_which env = None ->
  existsb is_spawn (events_of (handle_media env update) w) = false /\
  existsb is_model_call (events_of (handle_media env update) w) = false /\
  (existsb is_which (events_of (handle_media env update) w) = true ->
   replies (events_of (handle_media env update) w) = [ffmpeg_missing_text]).
Proof.
  intros Hwhich.
  cut (wp (handle_media env update)
         (fun _ w' => exists evs, trace w' = trace w ++ evs /\
            existsb is_spawn evs = false /\
            existsb is_model_call evs = false /\
            (existsb is_which evs = true ->
             replies evs = [ffmpeg_missing_text])) w).
  { intros (evs0 & Htr & H). by rewrite (events_of_app _ _ _ Htr). }
  handler_leaves update w.
  all: try discriminate Hwhich.
  all: new_events.
  all: cbn [existsb is_spawn is_model_call is_which orb replies omap
            list_omap].
  all: (split; [reflexivity|]); (split; [reflexivity|]).
  all: intros Hw; first [ discriminate Hw | reflexivity ].
Qed.

Lemma ffmpeg_missing_stops_pipeline_witness :
  env_which env_no_ffmpeg = None /\
  replies (events_of (handle_media env_no_ffmpeg voice_update) world0)
  = [ffmpeg_missing_text].
Proof.
  split; [reflexivity|].
  destruct (ffmpeg_missing_stops_pipeline env_no_ffmpeg voice_update world0
              eq_refl) as (_ & _ & H).
  apply H. by vm_compute.
Defined.

(** X14: a run on an update with a message that returns normally has
    sent exactly one reply: the guidance, one of the two error notices or
    the transcript. *)
Theorem normal_return_replies_once env msg w :
  result (handle_media env {| message := Some msg |}) w = Ok tt ->
  exists body,
    replies (events_of (handle_media env {| message := Some msg |}) w)
    = [body].
Proof.
  cut (wp (handle_media env {| message := Some msg |})
         (fun r w' => exists evs, trace w' = trace w ++ evs /\
            (r = Ok tt -> exists body, replies evs = [body])) w).
  { intros (evs0 & Htr & H) Hr. rewrite (events_of_app _ _ _ Htr).
    by apply H. }
  destruct msg as [v a vi d],
    w as [size device ctype lang mode cached dirs tr ident].
  wp_run.
  all: new_events.
  all: intros Hr; first [ discriminate Hr | clear Hr ].
  all: cbn [replies omap list_omap]; eexists; reflexivity.
Qed.

Lemma normal_return_replies_once_witness :
  result (handle_media env_ok voice_update) world0 = Ok tt /\
  exists body,
    replies (events_of (handle_media env_ok voice_update) world0) = [body].
Proof.
  assert (result (handle_media env_ok voice_update) world0 = Ok tt) as Hr
    by by vm_compute.
  split; [exact Hr|].
  exact (normal_return_replies_once env_ok _ world0 Hr).
Defined.

(** Facts a path has learnt about the answers of the outside world. *)
Ltac env_facts :=
  repeat match goal with
  | H : ?x = _ |- context [?x] => rewrite H
  end.

(** X15: the handler has no [except] clause: a failure of the Bot API, of
    starting the subprocess or of the model leaves it as that very
    exception.  A run returns normally exactly when none of its outside
    calls failed; otherwise exactly one call failed, the raised exception
    is that call's, and the call is the last the run made but for the
    release of the directory.  The exception is never [AttributeError],
    and unless it came from the Bot API the user has been sent nothing. *)
Theorem failure_propagates env update w :
  omap (failed_call env) (events_of (handle_media env update) w) =
    match result (handle_media env update) w with
    | Ok _ => []
    | Raise e => [e]
    end /\
  forall e, result (handle_media env update) w = Raise e ->
    (exists c,
       last (List.filter (fun x => negb (is_rmtree x))
               (events_of (handle_media env update) w)) = Some c /\
       failed_call env c = Some e) /\
    e <> AttributeError /\
    (e <> TelegramError ->
     replies (events_of (handle_media env update) w) = []).
Proof.
  cut (wp (handle_media env update)
         (fun r w' => exists evs, trace w' = trace w ++ evs /\
            omap (failed_call env) evs =
              match r with Ok _ => [] | Raise e => [e] end /\
            forall e, r = Raise e ->
              (exists c,
                 last (List.filter (fun x => negb (is_rmtree x)) evs)
                 = Some c /\
                 failed_call env c = Some e) /\
              e <> AttributeError /\
              (e <> TelegramError -> replies evs = [])) w).
  { intros (evs0 & Htr & H). by rewrite (events_of_app _ _ _ Htr). }
  handler_leaves update w.
  all: new_events.
  all: cbn [omap list_omap failed_call List.filter is_rmtree negb last
            replies].
  all: env_facts.
  all: (split; [reflexivity|]).
  all: intros e Hr; first [ discriminate Hr | injection Hr as <- ].
  all: (split;
    [ eexists; split; [reflexivity|]; cbn [failed_call]; env_facts;
      reflexivity |]).
  all: (split; [discriminate|]).
  all: intros Hne; first [ reflexivity | by destruct Hne ].
Qed.

Lemma failure_propagates_witness :
  result (handle_media env_spawn_fails voice_update) world0 = Raise OSError /\
  omap (failed_call env_spawn_fails)
    (events_of (handle_media env_spawn_fails voice_update) world0)
  = [OSError] /\
  replies (events_of (handle_media env_spawn_fails voice_update) world0) = [].
Proof.
  assert (result (handle_media env_spawn_fails voice_update) world0
          = Raise OSError) as Hr by by vm_compute.
  destruct (failure_propagates env_spawn_fails voice_update world0)
    as [Ho H].
  rewrite Hr in Ho.
  split; [exact Hr|]. split; [exact Ho|].
  destruct (H OSError Hr) as (_ & _ & Hn). apply Hn. discriminate.
Defined.

(** X16: handling a media message never changes the run mode, the
    preferred language or the model parameters, and never drops or
    replaces a model that is cached. *)
Theorem handle_media_keeps_settings env update w :
  let w' := run (handle_media env update) w in
  MODE w' = MODE w /\ TARGET_LANG w' = TARGET_LANG w /\
  MODEL_SIZE w' = MODEL_SIZE w /\ DEVICE w' = DEVICE w /\
  COMPUTE_TYPE w' = COMPUTE_TYPE w /\
  (forall h, model w = Some h -> model w' = Some h).
Proof.
  cut (wp (handle_media env update)
         (fun _ w' =>
            MODE w' = MODE w /\ TARGET_LANG w' = TARGET_LANG w /\
            MODEL_SIZE w' = MODEL_SIZE w /\ DEVICE w' = DEVICE w /\
            COMPUTE_TYPE w' = COMPUTE_TYPE w /\
            (forall h, model w = Some h -> model w' = Some h)) w).
  { done. }
  handler_leaves update w.
  all: do 5 (split; [reflexivity|]).
  all: intros h Hh; first [ exact Hh | discriminate Hh ].
Qed.

Lemma handle_media_keeps_settings_witness :
  MODE (run (handle_media env_no_model voice_update) world0) = MODE world0.
Proof.
  exact (proj1 (handle_media_keeps_settings env_no_model voice_update
                  world0)).
Defined.

(** X17: the outside calls of a run come in a fixed order, each at most
    once: resolve the attachment, create the directory, download, look
    for ffmpeg, start it, construct the model, run the inference, reply,
    remove the directory. *)
Theorem pipeline_order env update w :
  StronglySorted Nat.lt (map stage (events_of (handle_media env update) w)).
Proof.
  cut (wp (handle_media env update)
         (fun _ w' => exists evs, trace w' = trace w ++ evs /\
            StronglySorted Nat.lt (map stage evs)) w).
  { intros (evs0 & Htr & H). by rewrite (events_of_app _ _ _ Htr). }
  handler_leaves update w.
  all: new_events.
  all: cbn [map stage].
  all: repeat first [ apply SSorted_nil | apply SSorted_cons
                    | apply List.Forall_nil | apply List.Forall_cons
                    | unfold Nat.lt; lia ].
Qed.

(** X18: whenever ffmpeg is started, its input is the file the
    attachment was downloaded to, [in.] and the extension inside the
    scoped directory, its output is [out.wav] in the same directory, and
    the options between them ask for one channel at 16 kHz and for
    overwriting without a prompt. *)
Theorem ffmpeg_command_line env update w cmd :
  ESpawn cmd ∈ events_of (handle_media env update) w ->
  exists f ext,
    let in_path := {| path_dir := env_tmpdir env;
                      path_name := str "in." ++ ext |} in
    let out_wav := {| path_dir := env_tmpdir env;
                      path_name := str "out.wav" |} in
    EDownload f in_path ∈ events_of (handle_media env update) w /\
    cmd = [str "ffmpeg"; str "-y"; str "-i"; path_str in_path;
           str "-ac"; str "1"; str "-ar"; str "16000"; path_str out_wav].
Proof.
  cut (wp (handle_media env update)
         (fun _ w' => exists evs, trace w' = trace w ++ evs /\
            (ESpawn cmd ∈ evs ->
             exists f ext,
               EDownload f {| path_dir := env_tmpdir env;
                              path_name := str "in." ++ ext |} ∈ evs /\
               cmd = [str "ffmpeg"; str "-y"; str "-i";
                      path_str {| path_dir := env_tmpdir env;
                                  path_name := str "in." ++ ext |};
                      str "-ac"; str "1"; str "-ar"; str "16000";
                      path_str {| path_dir := env_tmpdir env;
                                  path_name := str "out.wav" |}])) w).
  { intros (evs0 & Htr & H). rewrite (events_of_app _ _ _ Htr). apply H. }
  handler_leaves update w.
  all: new_events.
  all: intros Hin.
  all: repeat (apply elem_of_cons in Hin as [Hin|Hin];
               [first [discriminate Hin | injection Hin as ->]|]).
  all: try (apply elem_of_nil in Hin; destruct Hin).
  all: eexists _, _; split; [|reflexivity].
  all: rewrite !elem_of_cons; right; right; by left.
Qed.

Lemma ffmpeg_command_line_witness :
  ESpawn voice_note_cmd
    ∈ events_of (handle_media env_ok voice_update) world0 /\
  exists f ext,
    EDownload f {| path_dir := env_tmpdir env_ok;
                   path_name := str "in." ++ ext |}
      ∈ events_of (handle_media env_ok voice_update) world0.
Proof.
  assert (ESpawn voice_note_cmd
            ∈ events_of (handle_media env_ok voice_update) world0) as Hin
    by (vm_compute; do 4 right; left).
  split; [exact Hin|].
  destruct (ffmpeg_command_line env_ok voice_update world0 voice_note_cmd Hin)
    as (f & ext & Hd & _).
  by exists f, ext.
Defined.

Lemma transcribe_events_wp env update w :
  wp (handle_media env update)
     (fun _ w' => exists evs, trace w' = trace w ++ evs /\
        Forall (transcribe_with (MODE w) (TARGET_LANG w) (model w')
                  (env_tmpdir env)) evs /\
        (forall h, model w = Some h ->
           model w' = Some h /\ existsb is_construct evs = false)) w.
Proof.
  handler_leaves update w.
  all: new_events.
  all: (split;
    [ repeat first [ apply List.Forall_nil | apply List.Forall_cons ];
      cbn [transcribe_with];
      first [ exact I | by repeat (split; [reflexivity|]) ]
    | ]).
  all: intros h Hh;
    first [ discriminate Hh | split; [exact Hh | reflexivity] ].
Qed.

(** X19: the inference runs on [out.wav] of the scoped directory and on
    the model that is cached when the handler ends, also when the
    inference or the reply fails afterwards; a model cached beforehand is
    the one used, and nothing is constructed then. *)
Theorem inference_uses_cached_model env update w m wav language task beam
    vad :
  ETranscribe m wav language task beam vad
    ∈ events_of (handle_media env update) w ->
  model (run (handle_media env update) w) = Some m /\
  wav = path_str {| path_dir := env_tmpdir env;
                    path_name := str "out.wav" |} /\
  (forall h, model w = Some h ->
     m = h /\
     existsb is_construct (events_of (handle_media env update) w) = false).
Proof.
  destruct (transcribe_events_wp env update w) as (evs & Htr & Hall & Hc).
  rewrite (events_of_app _ _ _ Htr). intros Hin.
  rewrite List.Forall_forall in Hall.
  apply list_elem_of_In, Hall in Hin as (Hm & Hwav & _).
  split; [exact Hm|]. split; [exact Hwav|].
  intros h Hh. destruct (Hc h Hh) as [Hm' Hn]. split; [|exact Hn].
  rewrite Hm in Hm'. by injection Hm'.
Qed.

Lemma inference_uses_cached_model_witness :
  ETranscribe (constructed world0) (str "/tmp/tmpk3v9/out.wav")
      (Some (str "he")) (str "transcribe") 5 true
    ∈ events_of (handle_media env_ok voice_update) world0 /\
  model (run (handle_media env_ok voice_update) world0)
  = Some (constructed world0).
Proof.
  assert (ETranscribe (constructed world0) (str "/tmp/tmpk3v9/out.wav")
              (Some (str "he")) (str "transcribe") 5 true
            ∈ events_of (handle_media env_ok voice_update) world0) as Hin
    by (vm_compute; do 6 right; left).
  split; [exact Hin|].
  exact (proj1 (inference_uses_cached_model _ _ _ _ _ _ _ _ _ Hin)).
Defined.

Lemma task_of_accepted_mode a rest :
  accepted_mode (a :: rest) = Some a ->
  (if bool_decide (a = str "translate")
   then str "translate" else str "transcribe") = a.
Proof.
  unfold accepted_mode.
  destruct (bool_decide_reflect (a = str "transcribe" \/ a = str "translate"))
    as [[->| ->]|]; [by vm_compute | by vm_compute | intros H; discriminate H].
Qed.

(** X20: the settings reach the model.  After an accepted [/mode a] and
    a [/lang b], whoever sent them and whether or not they could be
    answered, every inference of the next media message runs with the
    task [a] and the language [b]. *)
Theorem settings_reach_model env1 env2 env3 u1 u2 update a b rest1 rest2 w :
  accepted_mode (a :: rest1) = Some a ->
  let w1 := run (mode_cmd env1 u1 {| args := a :: rest1 |}) w in
  let w2 := run (lang_cmd env2 u2 {| args := b :: rest2 |}) w1 in
  Forall (task_and_language a
            (match b with [] => None | _ :: _ => Some b end))
         (events_of (handle_media env3 update) w2).
Proof.
  intros Ha w1 w2.
  destruct (mode_cmd_wp env1 u1 {| args := a :: rest1 |} w) as (HM & _).
  destruct (lang_cmd_wp env2 u2 {| args := b :: rest2 |} w1)
    as (HL & Hw2 & _).
  fold w1 in HM. fold w2 in HL, Hw2.
  cbn [args] in HM. rewrite Ha in HM. cbn [default from_option] in HM.
  cbn [args head default from_option] in HL.
  assert (MODE w2 = a) as Hmode.
  { rewrite <- Hw2. destruct w1. exact HM. }
  destruct (transcribe_events_wp env3 update w2) as (evs & Htr & Hall & _).
  rewrite (events_of_app _ _ _ Htr).
  rewrite Hmode, HL in Hall.
  eapply List.Forall_impl; [|exact Hall].
  intros [] He; try exact I.
  destruct He as (_ & _ & -> & ->). cbn [task_and_language].
  split; [|reflexivity]. exact (task_of_accepted_mode _ _ Ha).
Qed.

Lemma settings_reach_model_witness :
  accepted_mode [str "translate"] = Some (str "translate") /\
  Forall (task_and_language (str "translate") (Some (str "en")))
    (events_of (handle_media env_ok voice_update)
       (run (lang_cmd env_ok no_message {| args := [str "en"] |})
          (run (mode_cmd env_ok voice_update {| args := [str "translate"] |})
             world0))).
Proof.
  assert (accepted_mode [str "translate"] = Some (str "translate")) as Ha
    by by vm_compute.
  split; [exact Ha|].
  assert (match str "en" with [] => None | _ :: _ => Some (str "en") end
          = Some (str "en")) as Hl by by vm_compute.
  rewrite <- Hl.
  exact (settings_reach_model env_ok env_ok env_ok voice_update no_message
           voice_update (str "translate") (str "en") [] [] world0 Ha).
Defined.

(** X21: when the Bot API refuses to resolve the attachment, the handler
    stops there: no directory is created, the file system and the model
    cache are as before, and the refused call is the only outside call. *)
Theorem get_file_failure_stops_early env update w :
  env_get_file env = false ->
  let w' := run (handle_media env update) w in
  existsb is_mkdtemp (events_of (handle_media env update) w) = false /\
  fs w' = fs w /\ model w' = model w /\
  (length (events_of (handle_media env update) w) <= 1)%nat.
Proof.
  intros Hg.
  cut (wp (handle_media env update)
         (fun _ w' => exists evs, trace w' = trace w ++ evs /\
            existsb is_mkdtemp evs = false /\
            fs w' = fs w /\ model w' = model w /\
            (length evs <= 1)%nat) w).
  { intros (evs0 & Htr & H). by rewrite (events_of_app _ _ _ Htr). }
  handler_leaves update w.
  all: try discriminate Hg.
  all: new_events.
  all: cbn [existsb is_mkdtemp orb length].
  all: do 3 (split; [reflexivity|]).
  all: lia.
Qed.

Lemma get_file_failure_stops_early_witness :
  env_get_file env_no_file = false /\
  fs (run (handle_media env_no_file voice_update) world0) = fs world0.
Proof.
  split; [reflexivity|].
  exact (proj1 (proj2 (get_file_failure_stops_early env_no_file voice_update
                         world0 eq_refl))).
Defined.

Lemma existsb_transcribe_elem evs :
  existsb is_transcribe evs = true ->
  exists m wav language task beam vad,
    ETranscribe m wav language task beam vad ∈ evs.
Proof.
  induction evs as [|e evs IH]; cbn [existsb]; [intros H; discriminate H|].
  intros [He|Hr]%orb_prop.
  - destruct e; try discriminate He.
    do 6 eexists. apply list_elem_of_here.
  - destruct (IH Hr) as (m & wav & language & task & beam & vad & Hin).
    exists m, wav, language, task, beam, vad. by apply list_elem_of_further.
Qed.

(** X22: the model is loaded once for all requests.  After a run that
    got as far as the inference, whether that succeeded or not, a model
    is cached, and the next run constructs nothing and leaves the cache
    as it is. *)
Theorem model_loaded_once_across_requests env1 env2 u1 u2 w :
  existsb is_transcribe (events_of (handle_media env1 u1) w) = true ->
  let w1 := run (handle_media env1 u1) w in
  is_Some (model w1) /\
  model (run (handle_media env2 u2) w1) = model w1 /\
  existsb is_construct (events_of (handle_media env2 u2) w1) = false.
Proof.
  intros Ht w1.
  destruct (transcribe_events_wp env1 u1 w) as (evs & Htr & Hall & _).
  rewrite (events_of_app _ _ _ Htr) in Ht.
  apply existsb_transcribe_elem in Ht
    as (m & wav & language & task & beam & vad & Hin).
  rewrite List.Forall_forall in Hall.
  apply list_elem_of_In, Hall in Hin as (Hm & _). fold w1 in Hm.
  destruct (transcribe_events_wp env2 u2 w1) as (evs2 & Htr2 & _ & Hc).
  destruct (Hc m Hm) as [Hm2 Hn].
  rewrite (events_of_app _ _ _ Htr2).
  split; [by exists m|]. split; [|exact Hn].
  unfold wp in Hm2. by rewrite Hm.
Qed.

Lemma model_loaded_once_across_requests_witness :
  existsb is_transcribe (events_of (handle_media env_ok voice_update) world0)
    = true /\
  existsb is_construct
    (events_of (handle_media env_no_model voice_update)
       (run (handle_media env_ok voice_update) world0)) = false.
Proof.
  assert (existsb is_transcribe
            (events_of (handle_media env_ok voice_update) world0) = true)
    as Ht by by vm_compute.
  split; [exact Ht|].
  exact (proj2 (proj2 (model_loaded_once_across_requests env_ok env_no_model
                         voice_update voice_update world0 Ht))).
Defined.
